(** * AI Agent Framework: a shallow embedding of [agent.py]

  The development follows the layout of the Python module:

  - [PyStr]: the built-in string methods the agents call ([lower],
    [split], [strip], [replace], [title], the [in] substring test),
    faithful to CPython on ASCII text;
  - [Py]: Python values, dictionaries read with [get], slices, [str];
  - [Eff]: a state-and-exception monad; a raised exception keeps the
    mutations made before it, as in Python;
  - [BaseAgent], [ConversationalAgent], [TaskAgent], [RetrievalAgent]:
    the classes, one module each, methods under their Python names;
  - [Run] and [Sample]: call sequences, the specification's own wording
    of the properties, and the concrete agents the examples run on.

  An exception object records whether its class derives from
  [Exception]: [except Exception] catches those and lets the others
  ([SystemExit], [KeyboardInterrupt], [GeneratorExit]) through.  The
  string methods are those of CPython on ASCII text; a statement whose
  truth depends on how a string is lower-cased, split, stripped or
  title-cased says [isascii] of that string. *)

From Stdlib Require Import ZArith Ascii String List Lia Bool.
From stdpp Require Import base option list strings gmap pretty.

Local Open Scope Z_scope.

Set Warnings "-register-all".


(* ===================================================================== *)
(** ** Built-in string methods *)
(* ===================================================================== *)

Module PyStr.

Local Open Scope string_scope.

Definition code (c : ascii) : N := N_of_ascii c.

(** [str.isspace] on one ASCII character: TAB, LF, VT, FF, CR, the four
    separators FS, GS, RS, US, and the space. *)
Definition isspace (c : ascii) : bool :=
  let n := code c in
  ((9 <=? n) && (n <=? 13) || (28 <=? n) && (n <=? 32))%N.

Definition isupper (c : ascii) : bool :=
  let n := code c in ((65 <=? n) && (n <=? 90))%N.

Definition islower (c : ascii) : bool :=
  let n := code c in ((97 <=? n) && (n <=? 122))%N.

Definition isalpha (c : ascii) : bool := isupper c || islower c.

(** [s.isascii()]: every character is below 128.  On such strings the
    methods of this module are those of [str]. *)
Fixpoint isascii (s : string) : bool :=
  match s with
  | EmptyString => true
  | String c s' => (code c <? 128)%N && isascii s'
  end.

Definition lower_char (c : ascii) : ascii :=
  if isupper c then ascii_of_N (code c + 32) else c.

Definition upper_char (c : ascii) : ascii :=
  if islower c then ascii_of_N (code c - 32) else c.

(** [s.lower()] of ASCII text: the letters A to Z are the cased characters. *)
Fixpoint lower (s : string) : string :=
  match s with
  | EmptyString => EmptyString
  | String c s' => String (lower_char c) (lower s')
  end.

(** [s.startswith(p)] *)
Fixpoint startswith (p s : string) : bool :=
  match p, s with
  | EmptyString, _ => true
  | String a p', String b s' => if Ascii.eqb a b then startswith p' s' else false
  | String _ _, EmptyString => false
  end.

(** [w in s] on strings: [w] occurs in [s] as a contiguous substring. *)
Fixpoint contains (w s : string) : bool :=
  startswith w s ||
  match s with
  | EmptyString => false
  | String _ s' => contains w s'
  end.

(** [s.replace(old, new)]: non-overlapping occurrences, leftmost first.
    [skip] counts the characters of a matched occurrence still to drop.
    With an empty [old] Python puts [new] around every character. *)
Fixpoint replace_from (old new : string) (skip : nat) (s : string) : string :=
  match s with
  | EmptyString => EmptyString
  | String c s' =>
      match skip with
      | S k => replace_from old new k s'
      | O =>
          if startswith old s
          then new +:+ replace_from old new (String.length old - 1) s'
          else String c (replace_from old new 0 s')
      end
  end.

Fixpoint intersperse (new s : string) : string :=
  match s with
  | EmptyString => new
  | String c s' => new +:+ String c (intersperse new s')
  end.

Definition replace (old new s : string) : string :=
  match old with
  | EmptyString => intersperse new s
  | String _ _ => replace_from old new 0 s
  end.

(** [s.lstrip()], [s.rstrip()], [s.strip()] without argument, of ASCII
    text. *)
Fixpoint lstrip (s : string) : string :=
  match s with
  | EmptyString => EmptyString
  | String c s' => if isspace c then lstrip s' else s
  end.

Fixpoint rstrip (s : string) : string :=
  match s with
  | EmptyString => EmptyString
  | String c s' =>
      match rstrip s' with
      | EmptyString => if isspace c then EmptyString else String c EmptyString
      | r => String c r
      end
  end.

Definition strip (s : string) : string := rstrip (lstrip s).

(** [s.split()] without argument, of ASCII text: the maximal runs of
    non-whitespace characters, left to right; never an empty token.  [scan s] is the
    run that starts [s] (empty when [s] starts with whitespace) and the
    tokens after it. *)
Definition push_token (w : string) (ws : list string) : list string :=
  match w with
  | EmptyString => ws
  | String _ _ => w :: ws
  end.

Fixpoint scan (s : string) : string * list string :=
  match s with
  | EmptyString => (EmptyString, [])
  | String c s' =>
      let '(w, ws) := scan s' in
      if isspace c then (EmptyString, push_token w ws) else (String c w, ws)
  end.

Definition split (s : string) : list string :=
  let '(w, ws) := scan s in push_token w ws.

(** [s.title()] of ASCII text: a cased character is upper-cased when the
    character before it is not cased, lower-cased otherwise. *)
Fixpoint title_from (prev_cased : bool) (s : string) : string :=
  match s with
  | EmptyString => EmptyString
  | String c s' =>
      String (if prev_cased then lower_char c else upper_char c)
             (title_from (isalpha c) s')
  end.

Definition title (s : string) : string := title_from false s.

End PyStr.

(* ===================================================================== *)
(** ** Python values *)
(* ===================================================================== *)

Module Py.

Local Open Scope string_scope.

(** Hashable scalars, the only values that can be looked up among the
    keys of a [dict]. *)
Inductive atom : Type :=
| ANone
| ABool (b : bool)
| AInt (n : Z)
| AStr (s : string).

(** A [dict] keeps its items in insertion order; the keys the agents use
    are strings. *)
Inductive value : Type :=
| Atom (a : atom)
| VList (xs : list value)
| VDict (items : list (string * value)).

Abbreviation dict := (list (string * value)).
Abbreviation VNone := (Atom ANone).
Abbreviation VInt n := (Atom (AInt n)).
Abbreviation VStr s := (Atom (AStr s)).

(** An exception object: the name of its class, [str(e)], and whether the
    class derives from [Exception] rather than from [BaseException] alone. *)
Record exn : Type := mkExn {
  exn_class : string;
  exn_msg : string;
  exn_is_exception : bool
}.

(** An exception of a class derived from [Exception]. *)
Definition Raise (class msg : string) : exn := mkExn class msg true.

(** [SystemExit(code)], as [sys.exit(code)] raises it; not an [Exception]. *)
Definition SystemExit (code : string) : exn := mkExn "SystemExit" code false.

Definition AttributeError (msg : string) : exn := Raise "AttributeError" msg.
Definition TypeError (msg : string) : exn := Raise "TypeError" msg.
Definition ValueError (msg : string) : exn := Raise "ValueError" msg.

Definition type_name (v : value) : string :=
  match v with
  | Atom ANone => "NoneType"
  | Atom (ABool _) => "bool"
  | Atom (AInt _) => "int"
  | Atom (AStr _) => "str"
  | VList _ => "list"
  | VDict _ => "dict"
  end.

(** [str(a)], as an f-string renders a scalar. *)
Definition str (a : atom) : string :=
  match a with
  | ANone => "None"
  | ABool true => "True"
  | ABool false => "False"
  | AInt n => pretty n
  | AStr s => s
  end.

(** [d.get(k)] and [d.get(k, default)] *)
Fixpoint lookup_item (k : string) (d : dict) : option value :=
  match d with
  | [] => None
  | (k', v) :: d' => if String.eqb k k' then Some v else lookup_item k d'
  end.

Definition get (d : dict) (k : string) (default : value) : value :=
  match lookup_item k d with
  | Some v => v
  | None => default
  end.

(** The item stored under [k] in a value that is a [dict], if any. *)
Definition item (v : value) (k : string) : option value :=
  match v with
  | VDict d => lookup_item k d
  | _ => None
  end.

(** [d[k] = v]: an existing key keeps its position, a new key goes last. *)
Fixpoint setitem (k : string) (v : value) (d : dict) : dict :=
  match d with
  | [] => [(k, v)]
  | (k', v') :: d' =>
      if String.eqb k k' then (k, v) :: d' else (k', v') :: setitem k v d'
  end.

(** [l[start:]]: a negative [start] counts from the end, and the bound
    is clamped into [0 .. len(l)]. *)
Definition slice_from {A : Type} (start : Z) (l : list A) : list A :=
  let n := Z.of_nat (length l) in
  let i := (if start <? 0 then Z.max (start + n) 0 else Z.min start n)%Z in
  drop (Z.to_nat i) l.

(** [v.lower()]: only [str] has the method. *)
Definition lower_method (v : value) : exn + string :=
  match v with
  | VStr s => inr (PyStr.lower s)
  | _ => inl (AttributeError
                ("'" +:+ type_name v +:+ "' object has no attribute 'lower'"))
  end.

End Py.

(* ===================================================================== *)
(** ** State and exceptions *)
(* ===================================================================== *)

Module Eff.

Import Py.

(** A computation over a mutable state [St]: it returns or raises, and
    in both cases leaves a state behind. *)
Definition t (St A : Type) : Type := St -> (exn + A) * St.

Definition ret {St A} (a : A) : t St A := fun s => (inr a, s).

Definition bind {St A B} (m : t St A) (k : A -> t St B) : t St B :=
  fun s =>
    match m s with
    | (inr a, s') => k a s'
    | (inl e, s') => (inl e, s')
    end.

Definition raise {St A} (e : exn) : t St A := fun s => (inl e, s).

Definition gets {St A} (f : St -> A) : t St A := fun s => (inr (f s), s).

Definition modify {St} (f : St -> St) : t St unit := fun s => (inr tt, f s).

(** Lift a pure result-or-exception into the monad. *)
Definition lift {St A} (r : exn + A) : t St A := fun s => (r, s).

(** [try: body  except Exception as e: handler(e)]: an exception whose
    class does not derive from [Exception] is not handled and goes on. *)
Definition try_except {St A} (body : t St A) (handler : exn -> t St A) : t St A :=
  fun s =>
    match body s with
    | (inr a, s') => (inr a, s')
    | (inl e, s') => if exn_is_exception e then handler e s' else (inl e, s')
    end.

(** Run a computation of an embedded object (the base-class part of an
    agent) inside the enclosing one. *)
Definition zoom {S T A} (proj : T -> S) (upd : S -> T -> T) (m : t S A) : t T A :=
  fun x => let '(r, s') := m (proj x) in (r, upd s' x).

End Eff.

#[global] Instance eff_ret {St} : MRet (Eff.t St) := @Eff.ret St.
#[global] Instance eff_bind {St} : MBind (Eff.t St) := fun A B k m => Eff.bind m k.

(* ===================================================================== *)
(** ** class BaseAgent *)
(* ===================================================================== *)

Module BaseAgent.

Import Py.
Local Open Scope string_scope.

(** A loaded plugin instance: the object's private data and its [execute]
    method, which returns or raises and may update that data. *)
Record Plugin : Type := mkPlugin {
  plugin_self : value;
  plugin_execute : value -> value -> (exn + value) * value
}.

(** What an observer sees happen outside the agent's own fields: a plugin's
    [execute] being called, and a line written by [print]. *)
Inductive event : Type :=
| Executed (plugin_name : string) (arg : value)
| Printed (line : string).

(** The recognised configuration option; [None] when the key is absent. *)
Record Config : Type := mkConfig { max_memory : option Z }.

Definition empty_config : Config := mkConfig None.

Record state : Type := mkState {
  name : string;
  config : Config;
  plugins : gmap string Plugin;
  memory : list value;
  context : dict;
  trace : list event
}.

Definition set_plugins (f : gmap string Plugin -> gmap string Plugin) (s : state) : state :=
  mkState (name s) (config s) (f (plugins s)) (memory s) (context s) (trace s).

Definition set_memory (f : list value -> list value) (s : state) : state :=
  mkState (name s) (config s) (plugins s) (f (memory s)) (context s) (trace s).

Definition log_event (ev : event) (s : state) : state :=
  mkState (name s) (config s) (plugins s) (memory s) (context s) (trace s ++ [ev])%list.

(** [__init__]: [config or {}], no plugin, empty memory. *)
Definition init (name : string) (config : option Config) : state :=
  mkState name (default empty_config config) ∅ [] [] [].

Definition print (line : string) : Eff.t state unit :=
  Eff.modify (log_event (Printed line)).

(** The import system seen from [load_plugin]: [import_module] finds a
    module or raises; [getattr] finds the attribute or raises; calling the
    attribute with no argument builds the instance or raises. *)
Definition constructor : Type := exn + Plugin.
Definition pymodule : Type := string -> option constructor.

Definition getattr (module_name : string) (m : pymodule) (attr : string) : exn + constructor :=
  match m attr with
  | Some c => inr c
  | None => inl (AttributeError
                   ("module '" +:+ module_name +:+ "' has no attribute '" +:+ attr +:+ "'"))
  end.

Definition class_name (plugin_name : string) : string :=
  PyStr.replace "_" "" (PyStr.title plugin_name) +:+ "Plugin".

Section Loading.

Variable import_module : string -> exn + pymodule.

Definition load_plugin (plugin_name : string) (plugin_path : string) : Eff.t state bool :=
  Eff.try_except
    (let module_name := plugin_path +:+ "." +:+ plugin_name in
     module ← Eff.lift (import_module module_name);
     plugin_class ← Eff.lift (getattr module_name module (class_name plugin_name));
     instance ← Eff.lift plugin_class;
     Eff.modify (set_plugins (insert plugin_name instance));;
     print ("✓ Plugin '" +:+ plugin_name +:+ "' loaded successfully");;
     mret true)
    (fun e =>
       print ("✗ Failed to load plugin '" +:+ plugin_name +:+ "': " +:+ exn_msg e);;
       mret false).

End Loading.

(** [k in self.plugins] followed by [self.plugins[k]]: an unhashable key
    raises, a key that is no string is never present. *)
Definition find_plugin (k : value) (m : gmap string Plugin) : exn + option (string * Plugin) :=
  match k with
  | VStr key => inr (pair key <$> m !! key)
  | Atom _ => inr None
  | VList _ | VDict _ => inl (TypeError ("unhashable type: '" +:+ type_name k +:+ "'"))
  end.

(** The key as an f-string renders it; the formatting is reached with a
    hashable key only, an unhashable one having raised before. *)
Definition key_str (k : value) : string :=
  match k with
  | Atom a => str a
  | _ => type_name k
  end.

(** Calling [execute] on the stored instance: the call is observed, and
    the instance keeps whatever the method did to it. *)
Definition call_execute (key : string) (p : Plugin) (arg : value) : Eff.t state value :=
  fun s =>
    let '(outcome, self') := plugin_execute p (plugin_self p) arg in
    (outcome,
     log_event (Executed key arg)
       (set_plugins (insert key (mkPlugin self' (plugin_execute p))) s)).

Definition execute_plugin (plugin_name : value) (arg : value) : Eff.t state value :=
  found ← (fun s => (find_plugin plugin_name (plugins s), s));
  match found with
  | Some (key, p) => call_execute key p arg
  | None => Eff.raise (ValueError ("Plugin '" +:+ key_str plugin_name +:+ "' not loaded"))
  end.

(** [add_to_memory] on the list itself: append, then [pop(0)] when the
    length exceeds the bound. *)
Definition append_bounded (bound : Z) (log : list value) (entry : value) : list value :=
  let log' := (log ++ [entry])%list in
  if (Z.of_nat (length log') >? bound)%Z then drop 1 log' else log'.

Definition memory_bound (c : Config) : Z := default 100%Z (max_memory c).

Definition add_to_memory (entry : value) : Eff.t state unit :=
  Eff.modify (fun s => set_memory (fun log => append_bounded (memory_bound (config s)) log entry) s).

(** [get_memory(limit)] is [self.memory[-limit:]]; the default limit is 10. *)
Definition recent (limit : Z) (log : list value) : list value :=
  slice_from (- limit) log.

Definition get_memory (limit : option Z) : Eff.t state (list value) :=
  Eff.gets (fun s => recent (default 10%Z limit) (memory s)).

End BaseAgent.

(* ===================================================================== *)
(** ** class ConversationalAgent(BaseAgent) *)
(* ===================================================================== *)

Module ConversationalAgent.

Import Py.
Local Open Scope string_scope.

Record state : Type := mkState {
  base : BaseAgent.state;
  conversation_history : list value
}.

Definition set_base (b : BaseAgent.state) (s : state) : state :=
  mkState b (conversation_history s).

Definition on_base {A} (m : Eff.t BaseAgent.state A) : Eff.t state A :=
  Eff.zoom base set_base m.

Definition init (name : option string) (config : option BaseAgent.Config) : state :=
  mkState (BaseAgent.init (default "ConversationalAgent" name) config) [].

Definition turn (role : string) (content : value) : value :=
  VDict [("role", VStr role); ("content", content)].

Definition exchange (user_input : string) (response : value) : value :=
  VDict [("user", VStr user_input); ("assistant", response)].

Definition append_history (entry : value) : Eff.t state unit :=
  Eff.modify (fun s => mkState (base s) (conversation_history s ++ [entry])%list).

Definition loaded (plugin_name : string) (s : state) : bool :=
  bool_decide (is_Some (BaseAgent.plugins (base s) !! plugin_name)).

Definition greetings : list string := ["hello"; "hi"; "hey"; "greetings"].

Definition search_query (user_input : string) : string :=
  PyStr.strip (PyStr.replace "search" "" user_input).

Definition _generate_response (user_input : string) : Eff.t state value :=
  let user_input_lower := PyStr.lower user_input in
  has_search ← Eff.gets (loaded "web_search");
  if PyStr.contains "search" user_input_lower && has_search then
    on_base (BaseAgent.execute_plugin (VStr "web_search") (VStr (search_query user_input)))
  else
    has_calculator ← Eff.gets (loaded "calculator");
    if PyStr.contains "calculate" user_input_lower && has_calculator then
      on_base (BaseAgent.execute_plugin (VStr "calculator") (VStr user_input))
    else if existsb (fun g => PyStr.contains g user_input_lower) greetings then
      self_name ← Eff.gets (fun s => BaseAgent.name (base s));
      mret (VStr ("Hello! I'm " +:+ self_name +:+ ". How can I assist you today?"))
    else
      mret (VStr "I understand. How else can I help you?").

Definition process (user_input : string) : Eff.t state value :=
  append_history (turn "user" (VStr user_input));;
  response ← _generate_response user_input;
  append_history (turn "assistant" response);;
  on_base (BaseAgent.add_to_memory (exchange user_input response));;
  mret response.

End ConversationalAgent.

(* ===================================================================== *)
(** ** class TaskAgent(BaseAgent) *)
(* ===================================================================== *)

Module TaskAgent.

Import Py.
Local Open Scope string_scope.

Record state : Type := mkState {
  base : BaseAgent.state;
  task_queue : list dict;
  completed_tasks : list value
}.

Definition set_base (b : BaseAgent.state) (s : state) : state :=
  mkState b (task_queue s) (completed_tasks s).

Definition set_queue (q : list dict) (s : state) : state :=
  mkState (base s) q (completed_tasks s).

Definition on_base {A} (m : Eff.t BaseAgent.state A) : Eff.t state A :=
  Eff.zoom base set_base m.

Definition init (name : option string) (config : option BaseAgent.Config) : state :=
  mkState (BaseAgent.init (default "TaskAgent" name) config) [] [].

(** The record [process] starts from, and the two ways it is closed. *)
Definition pending (task : dict) : dict :=
  [("task", VDict task); ("status", VStr "pending"); ("result", VNone)].

Definition completed (r : value) (result : dict) : dict :=
  setitem "status" (VStr "completed") (setitem "result" r result).

Definition failed (msg : string) (result : dict) : dict :=
  setitem "error" (VStr msg) (setitem "status" (VStr "failed") result).

(** [task_type in self.plugins] *)
Definition has_plugin (k : value) : Eff.t state bool :=
  fun s =>
    match BaseAgent.find_plugin k (BaseAgent.plugins (base s)) with
    | inl e => (inl e, s)
    | inr found => (inr (bool_decide (is_Some found)), s)
    end.

(** The local [result] is changed inside [try] only after [execute_plugin]
    has returned, so the handler always starts from the pending record. *)
Definition process (task : dict) : Eff.t state value :=
  let task_type := get task "type" VNone in
  let task_data := get task "data" VNone in
  let result := pending task in
  result ← Eff.try_except
    (known ← has_plugin task_type;
     if known : bool then
       r ← on_base (BaseAgent.execute_plugin task_type task_data);
       mret (completed r result)
     else
       mret (failed ("No plugin for task type '" +:+ BaseAgent.key_str task_type +:+ "'") result))
    (fun e => mret (failed (exn_msg e) result));
  Eff.modify (fun s => mkState (base s) (task_queue s) (completed_tasks s ++ [VDict result])%list);;
  mret (VDict result).

Definition add_task (task : dict) : Eff.t state unit :=
  Eff.modify (fun s => set_queue (task_queue s ++ [task])%list s).

(** [while self.task_queue: ...].  One unit of [fuel] is spent per test of
    the loop condition; [None] means the fuel ran out. *)
Fixpoint process_queue_loop (fuel : nat) (results : list value) (s : state)
  : option ((exn + list value) * state) :=
  match fuel with
  | O => None
  | S fuel' =>
      match task_queue s with
      | [] => Some (inr results, s)
      | task :: rest =>
          match process task (set_queue rest s) with
          | (inr r, s') => process_queue_loop fuel' (results ++ [r])%list s'
          | (inl e, s') => Some (inl e, s')
          end
      end
  end.

Definition process_queue (fuel : nat) (s : state) : option ((exn + list value) * state) :=
  process_queue_loop fuel [] s.

End TaskAgent.

(* ===================================================================== *)
(** ** class RetrievalAgent(BaseAgent) *)
(* ===================================================================== *)

Module RetrievalAgent.

Import Py.
Local Open Scope string_scope.

Record state : Type := mkState {
  base : BaseAgent.state;
  knowledge_base : list dict
}.

Definition set_base (b : BaseAgent.state) (s : state) : state :=
  mkState b (knowledge_base s).

Definition on_base {A} (m : Eff.t BaseAgent.state A) : Eff.t state A :=
  Eff.zoom base set_base m.

Definition init (name : option string) (config : option BaseAgent.Config) : state :=
  mkState (BaseAgent.init (default "RetrievalAgent" name) config) [].

(** [any(word in doc.get("content", "").lower() for word in words)]: the
    generator evaluates its element once per word and stops at the first
    true one, so with no word the content is never touched. *)
Fixpoint any_word_in (content : value) (words : list string) : exn + bool :=
  match words with
  | [] => inr false
  | word :: words' =>
      match lower_method content with
      | inl e => inl e
      | inr text => if PyStr.contains word text then inr true else any_word_in content words'
      end
  end.

Fixpoint retrieve_loop (words : list string) (docs : list dict) (results : list dict)
  : exn + list dict :=
  match docs with
  | [] => inr results
  | doc :: docs' =>
      match any_word_in (get doc "content" (VStr "")) words with
      | inl e => inl e
      | inr true => retrieve_loop words docs' (results ++ [doc])%list
      | inr false => retrieve_loop words docs' results
      end
  end.

Definition _retrieve (query : string) : Eff.t state (list dict) :=
  let query_lower := PyStr.lower query in
  fun s => (retrieve_loop (PyStr.split query_lower) (knowledge_base s) [], s).

Definition response_of (query : string) (results : list dict) : value :=
  VDict [("query", VStr query);
         ("results", VList (VDict <$> results));
         ("count", VInt (Z.of_nat (length results)))].

Definition process (query : string) : Eff.t state value :=
  results ← _retrieve query;
  let response := response_of query results in
  on_base (BaseAgent.add_to_memory response);;
  mret response.

Definition add_document (document : dict) : Eff.t state unit :=
  Eff.modify (fun s => mkState (base s) (knowledge_base s ++ [document])%list).

Definition load_documents (documents : list dict) : Eff.t state unit :=
  Eff.modify (fun s => mkState (base s) (knowledge_base s ++ documents)%list).

End RetrievalAgent.

(* ===================================================================== *)
(** ** def create_agent *)
(* ===================================================================== *)

(** An agent of one of the three concrete classes. *)
Inductive agent : Type :=
| Conversational (s : ConversationalAgent.state)
| Task (s : TaskAgent.state)
| Retrieval (s : RetrievalAgent.state).

(** A class called with the keyword arguments [name] and [config], each
    possibly left out. *)
Definition agent_class : Type := option string -> option BaseAgent.Config -> agent.

Definition agent_types : list (string * agent_class) :=
  [("conversational"%string, fun name config => Conversational (ConversationalAgent.init name config));
   ("task"%string, fun name config => Task (TaskAgent.init name config));
   ("retrieval"%string, fun name config => Retrieval (RetrievalAgent.init name config))].

Fixpoint types_get (key : string) (types : list (string * agent_class)) : option agent_class :=
  match types with
  | [] => None
  | (k, cls) :: types' => if String.eqb key k then Some cls else types_get key types'
  end.

(** [agent_type] defaults to ["conversational"]; the message of the error
    quotes the tag as it was given. *)
Definition create_agent (agent_type : option string)
    (name : option string) (config : option BaseAgent.Config) : Py.exn + agent :=
  let agent_type := default "conversational"%string agent_type in
  match types_get (PyStr.lower agent_type) agent_types with
  | Some cls => inr (cls name config)
  | None => inl (Py.ValueError ("Unknown agent type: " +:+ agent_type))
  end.

(* ===================================================================== *)
(** ** Call sequences and sample objects used in the statements *)
(* ===================================================================== *)

Module Run.

Import Py.
Local Open Scope string_scope.

(** The state a computation leaves behind, whether it returned or raised. *)
Definition after {St A} (m : Eff.t St A) (s : St) : St := snd (m s).

(** The last [n] elements of a list. *)
Definition last_n {A} (n : nat) (l : list A) : list A := drop (length l - n) l.

(** [for e in entries: agent.add_to_memory(e)] *)
Definition remember_all (entries : list value) (s : BaseAgent.state) : BaseAgent.state :=
  foldl (fun s e => after (BaseAgent.add_to_memory e) s) s entries.

(** One full exchange was recorded between [s] and [s']: the user turn and
    an assistant turn added to the history, in that order, and their
    combined record put through [add_to_memory]. *)
Definition records_exchange (user_input : string) (s s' : ConversationalAgent.state) : Prop :=
  ∃ response,
    ConversationalAgent.conversation_history s' =
      (ConversationalAgent.conversation_history s
         ++ [ConversationalAgent.turn "user" (VStr user_input);
             ConversationalAgent.turn "assistant" response])%list ∧
    BaseAgent.memory (ConversationalAgent.base s') =
      BaseAgent.append_bounded
        (BaseAgent.memory_bound (BaseAgent.config (ConversationalAgent.base s)))
        (BaseAgent.memory (ConversationalAgent.base s))
        (ConversationalAgent.exchange user_input response).

(** The three steps [load_plugin] takes to an instance: import the module,
    look the class up, call it. *)
Definition resolve (import_module : string -> exn + BaseAgent.pymodule)
    (plugin_name plugin_path : string) : exn + BaseAgent.Plugin :=
  let module_name := plugin_path +:+ "." +:+ plugin_name in
  match import_module module_name with
  | inl e => inl e
  | inr module =>
      match BaseAgent.getattr module_name module (BaseAgent.class_name plugin_name) with
      | inl e => inl e
      | inr plugin_class => plugin_class
      end
  end.

(** Retrieval as the specification words it: [token] occurs in [text] as a
    substring when case is ignored; a document matches a query when its
    [content] field contains, in that sense, one of the whitespace-separated
    tokens of the query. *)
Definition occurs_ignoring_case (token text : string) : bool :=
  PyStr.contains (PyStr.lower token) (PyStr.lower text).

Definition matches (query : string) (doc : dict) : bool :=
  match lookup_item "content" doc with
  | Some (VStr text) =>
      existsb (fun token => occurs_ignoring_case token text) (PyStr.split query)
  | _ => false
  end.

(** A document as the data model has it: [content], when present, is a
    string. *)
Definition text_content (doc : dict) : bool :=
  match lookup_item "content" doc with
  | Some (VStr _) | None => true
  | Some _ => false
  end.

(** A document whose [content], when present, is ASCII text. *)
Definition ascii_content (doc : dict) : bool :=
  match lookup_item "content" doc with
  | Some (VStr text) => PyStr.isascii text
  | None => true
  | Some _ => false
  end.

(** What the [except Exception] clause of [TaskAgent.process] makes of an
    exception: a failed record, or the exception itself when it is none. *)
Definition handled (task : dict) (e : exn) : exn + dict :=
  if exn_is_exception e
  then inr (TaskAgent.failed (exn_msg e) (TaskAgent.pending task))
  else inl e.

(** What [TaskAgent.process] makes of one task: the closed record, or the
    exception it lets through, and the base-class state after the
    dispatch. *)
Definition task_outcome (task : dict) (b : BaseAgent.state)
  : (exn + dict) * BaseAgent.state :=
  let task_type := get task "type" VNone in
  let task_data := get task "data" VNone in
  match BaseAgent.find_plugin task_type (BaseAgent.plugins b) with
  | inl e => (handled task e, b)
  | inr None =>
      (inr (TaskAgent.failed
              ("No plugin for task type '" +:+ BaseAgent.key_str task_type +:+ "'")
              (TaskAgent.pending task)), b)
  | inr (Some (key, p)) =>
      match BaseAgent.call_execute key p task_data b with
      | (inl e, b') => (handled task e, b')
      | (inr v, b') => (inr (TaskAgent.completed v (TaskAgent.pending task)), b')
      end
  end.

(** The claims about the task agent as properties of one call: [process]
    returns a closed record and files it last in [completed_tasks]; a
    drain returns one record per queued task and leaves the queue empty. *)
Definition files_closed_record (task : dict) (s : TaskAgent.state) : Prop :=
  exists r s',
    TaskAgent.process task s = (inr r, s') /\
    (item r "status" = Some (VStr "completed") \/ item r "status" = Some (VStr "failed")) /\
    TaskAgent.completed_tasks s' = (TaskAgent.completed_tasks s ++ [r])%list /\
    last (TaskAgent.completed_tasks s') = Some r.

Definition drains_whole_queue (fuel : nat) (s : TaskAgent.state) : Prop :=
  exists results s',
    TaskAgent.process_queue fuel s = Some (inr results, s') /\
    length results = length (TaskAgent.task_queue s) /\
    TaskAgent.task_queue s' = [].

(** [for t in tasks: results.append(agent.process(t))]: the results in
    call order and the final state. *)
Fixpoint process_each (tasks : list dict) (s : TaskAgent.state)
  : (exn + list value) * TaskAgent.state :=
  match tasks with
  | [] => (inr [], s)
  | task :: tasks' =>
      match TaskAgent.process task s with
      | (inr r, s') =>
          match process_each tasks' s' with
          | (inr rs, s'') => (inr (r :: rs), s'')
          | (inl e, s'') => (inl e, s'')
          end
      | (inl e, s') => (inl e, s')
      end
  end.

(** [for u in inputs: answers.append(agent.process(u))], stopping at the
    first call that raises. *)
Fixpoint converse (inputs : list string) (s : ConversationalAgent.state)
  : (exn + list value) * ConversationalAgent.state :=
  match inputs with
  | [] => (inr [], s)
  | user_input :: inputs' =>
      match ConversationalAgent.process user_input s with
      | (inr answer, s') =>
          match converse inputs' s' with
          | (inr answers, s'') => (inr (answer :: answers), s'')
          | (inl e, s'') => (inl e, s'')
          end
      | (inl e, s') => (inl e, s')
      end
  end.

(** The answer of the conversational agent when no plugin takes the input:
    the greeting when the lower-cased input contains a greeting word, the
    fallback otherwise. *)
Definition greets (user_input : string) : bool :=
  existsb (fun g => PyStr.contains g (PyStr.lower user_input))
    ["hello"; "hi"; "hey"; "greetings"].

Definition canned_answer (self_name user_input : string) : value :=
  VStr (if greets user_input
        then "Hello! I'm " +:+ self_name +:+ ". How can I assist you today?"
        else "I understand. How else can I help you?").

(** The state after an exchange answered without a plugin. *)
Definition plain_exchange (user_input : string) (s : ConversationalAgent.state)
  : ConversationalAgent.state :=
  let b := ConversationalAgent.base s in
  let answer := canned_answer (BaseAgent.name b) user_input in
  ConversationalAgent.mkState
    (BaseAgent.set_memory
       (fun log => BaseAgent.append_bounded (BaseAgent.memory_bound (BaseAgent.config b))
                     log (ConversationalAgent.exchange user_input answer))
       b)
    ((ConversationalAgent.conversation_history s
        ++ [ConversationalAgent.turn "user" (VStr user_input)])
       ++ [ConversationalAgent.turn "assistant" answer])%list.

(** What it takes for a document to be retrieved: a [content] field that is
    text in which some token of the query occurs, case ignored. *)
Definition retrieved_for (query : string) (doc : dict) : Prop :=
  exists text token,
    lookup_item "content" doc = Some (VStr text) /\
    token ∈ PyStr.split query /\
    occurs_ignoring_case token text = true.

(** The two turns one exchange adds to the history. *)
Definition turns (user_input : string) (answer : value) : list value :=
  [ConversationalAgent.turn "user" (VStr user_input);
   ConversationalAgent.turn "assistant" answer].

(** [for t in tasks: agent.add_task(t)] *)
Definition add_tasks (tasks : list dict) (s : TaskAgent.state) : TaskAgent.state :=
  foldl (fun s task => after (TaskAgent.add_task task) s) s tasks.

(** [for d in documents: agent.add_document(d)] *)
Definition add_documents (documents : list dict) (s : RetrievalAgent.state)
  : RetrievalAgent.state :=
  foldl (fun s d => after (RetrievalAgent.add_document d) s) s documents.

(** The [results] list of a response of the retrieval agent. *)
Definition results_of (response : value) : option value := item response "results".

End Run.

Module Sample.

Import Py.
Local Open Scope string_scope.

(** A plugin that answers with its argument wrapped in a list and counts
    its calls in its private data. *)
Definition counting_execute (self arg : value) : (exn + value) * value :=
  (inr (VList [arg]),
   match self with
   | VInt n => VInt (n + 1)
   | _ => VInt 1
   end).

Definition echo : BaseAgent.Plugin := BaseAgent.mkPlugin (VInt 0) counting_execute.

(** A plugin whose [execute] always raises. *)
Definition broken : BaseAgent.Plugin :=
  BaseAgent.mkPlugin VNone (fun self _ => (inl (Raise "RuntimeError" "service down"), self)).

Definition with_plugin (key : string) (p : BaseAgent.Plugin) (b : BaseAgent.state)
  : BaseAgent.state :=
  BaseAgent.set_plugins (insert key p) b.

Definition entry (n : Z) : value := VDict [("n", VInt n)].

(** An agent whose memory holds at most two entries. *)
Definition small_agent : BaseAgent.state :=
  BaseAgent.init "small" (Some (BaseAgent.mkConfig (Some 2%Z))).

(** The same agent after remembering two entries. *)
Definition two_entries : BaseAgent.state :=
  BaseAgent.set_memory (fun _ => [entry 1; entry 2]) small_agent.

(** A conversational agent whose [web_search] plugin raises. *)
Definition chat_broken_search : ConversationalAgent.state :=
  ConversationalAgent.mkState
    (with_plugin "web_search" broken (BaseAgent.init "Ada" None)) [].

(** A conversational agent whose [web_search] plugin answers. *)
Definition chat_search : ConversationalAgent.state :=
  ConversationalAgent.mkState
    (with_plugin "web_search" echo (BaseAgent.init "Ada" None)) [].

(** A task agent with one working and one failing plugin, and four queued
    tasks: served, failing, of an unhashable type, and without a type. *)
Definition worker : TaskAgent.state :=
  TaskAgent.mkState
    (with_plugin "echo" echo (with_plugin "bad" broken (BaseAgent.init "W" None)))
    [[("type", VStr "echo"); ("data", VInt 1)];
     [("type", VStr "bad")];
     [("type", VList [])];
     [("data", VInt 3)]]
    [].

Definition cat_doc : dict := [("content", VStr "the cat sat")].
Definition titled_doc : dict := [("title", VStr "untitled"); ("content", VStr "A Dog, a CAT")].
Definition bare_doc : dict := [("title", VStr "no content")].

Definition library : RetrievalAgent.state :=
  RetrievalAgent.mkState (BaseAgent.init "R" None) [cat_doc; titled_doc; bare_doc].

(** A filesystem with one module, [plugins.web_search], defining
    [WebSearchPlugin]. *)
Definition one_plugin_importer (module_name : string) : exn + BaseAgent.pymodule :=
  if String.eqb module_name "plugins.web_search" then
    inr (fun attr => if String.eqb attr "WebSearchPlugin" then Some (inr echo) else None)
  else
    inl (Raise "ModuleNotFoundError" ("No module named '" +:+ module_name +:+ "'")).

(** A plugin whose [execute] calls [sys.exit(0)]. *)
Definition exiting : BaseAgent.Plugin :=
  BaseAgent.mkPlugin VNone (fun self _ => (inl (SystemExit "0"), self)).

(** A task agent with a working and an exiting plugin, and three queued
    tasks, the second of which exits. *)
Definition exit_worker : TaskAgent.state :=
  TaskAgent.mkState
    (with_plugin "echo" echo (with_plugin "quit" exiting (BaseAgent.init "W" None)))
    [[("type", VStr "echo"); ("data", VInt 1)];
     [("type", VStr "quit")];
     [("type", VStr "echo"); ("data", VInt 2)]]
    [].


(** A conversational agent with a working [calculator] plugin only. *)
Definition chat_calculator : ConversationalAgent.state :=
  ConversationalAgent.mkState
    (with_plugin "calculator" echo (BaseAgent.init "Ada" None)) [].

(** A conversational agent without plugins. *)
Definition chat_plain : ConversationalAgent.state :=
  ConversationalAgent.init (Some "Ada") None.

(** A task agent with the plugins of [worker] and nothing queued. *)
Definition idle_worker : TaskAgent.state := TaskAgent.set_queue [] worker.

(** A document whose content is a number. *)
Definition numbered_doc : dict := [("content", VInt 7)].

Definition bad_library : RetrievalAgent.state :=
  RetrievalAgent.mkState (BaseAgent.init "R" None) [cat_doc; numbered_doc].

End Sample.

(* ===================================================================== *)
(** * Properties *)
(* ===================================================================== *)

(** ** The built-ins on sample inputs *)

Section PyStrExamples.

Import PyStr.
Local Open Scope string_scope.

Example lower_mixed : lower "Search THE Web_1" = "search the web_1".
Proof. reflexivity. Qed.

Example contains_inner : contains "cat" "the cat sat" = true.
Proof. reflexivity. Qed.

Example contains_missing : contains "dog" "the cat sat" = false.
Proof. reflexivity. Qed.

Example contains_empty : contains "" "abc" = true.
Proof. reflexivity. Qed.

Example replace_twice : replace "search" "" "searchsearch x" = " x".
Proof. reflexivity. Qed.

Example replace_leftmost : replace "aa" "b" "aaa" = "ba".
Proof. reflexivity. Qed.

Example replace_empty_old : replace "" "-" "abc" = "-a-b-c-".
Proof. reflexivity. Qed.

Example strip_both : strip "  x y  " = "x y".
Proof. reflexivity. Qed.

Example split_runs : split "  the  cat sat " = ["the"; "cat"; "sat"].
Proof. reflexivity. Qed.

Example split_only_spaces : split "   " = [].
Proof. reflexivity. Qed.

Example title_snake : title "web_search" = "Web_Search".
Proof. reflexivity. Qed.

Example title_mixed : title "a1b_cD" = "A1B_Cd".
Proof. reflexivity. Qed.

End PyStrExamples.

Section PyExamples.

Import Py.
Local Open Scope string_scope.

Example str_negative : str (AInt (-5)) = "-5".
Proof. reflexivity. Qed.

Example slice_last_two : slice_from (-2) [1; 2; 3] = [2; 3].
Proof. reflexivity. Qed.

Example slice_beyond : slice_from (-5) [1; 2; 3] = [1; 2; 3].
Proof. reflexivity. Qed.

Example slice_positive : slice_from 1 [1; 2; 3] = [2; 3].
Proof. reflexivity. Qed.

Example setitem_existing :
  setitem "b" (VInt 9) [("a", VInt 1); ("b", VInt 2)] = [("a", VInt 1); ("b", VInt 9)].
Proof. reflexivity. Qed.

Example search_query_plain :
  ConversationalAgent.search_query "search weather" = "weather".
Proof. reflexivity. Qed.

Example search_query_capitalised :
  ConversationalAgent.search_query "Search the search weather " = "Search the  weather".
Proof. reflexivity. Qed.

Example class_name_web_search : BaseAgent.class_name "web_search" = "WebSearchPlugin".
Proof. reflexivity. Qed.

End PyExamples.

(** ** The bounded memory log *)

Section MemoryLog.

Import Py.
Import BaseAgent.
Import Run.

Implicit Types (log entries : list value) (e : value) (s : BaseAgent.state).

Lemma append_bounded_cases bound log e :
  append_bounded bound log e = log ++ [e] ∨
  append_bounded bound log e = drop 1 (log ++ [e]).
Proof. unfold append_bounded. destruct (_ >? _)%Z; auto. Qed.

Lemma append_bounded_last_n (cap : nat) log e :
  (length log <= cap)%nat →
  append_bounded (Z.of_nat cap) log e = last_n cap (log ++ [e]).
Proof.
  intros Hlen. unfold append_bounded, last_n.
  rewrite length_app. simpl length.
  destruct (Z.gtb_spec (Z.of_nat (length log + 1)) (Z.of_nat cap)) as [Hgt | Hle].
  - replace (length log + 1 - cap)%nat with 1%nat by lia. reflexivity.
  - replace (length log + 1 - cap)%nat with 0%nat by lia. reflexivity.
Qed.

Lemma last_n_length {A} (n : nat) (l : list A) :
  length (last_n n l) = Nat.min n (length l).
Proof. unfold last_n. rewrite length_drop. lia. Qed.

Lemma last_n_snoc {A} (n : nat) (l : list A) (x : A) (rest : list A) :
  last_n n (last_n n (l ++ [x]) ++ rest) = last_n n (l ++ x :: rest).
Proof.
  unfold last_n.
  rewrite (cons_middle x l rest), (assoc_L (++) l [x] rest).
  set (m := l ++ [x]).
  rewrite <- (drop_app_le m rest (length m - n)) by lia.
  rewrite drop_drop. f_equal.
  rewrite length_drop, !length_app. lia.
Qed.

Lemma memory_remember_all entries : ∀ s,
  memory (Run.remember_all entries s) =
  foldl (append_bounded (memory_bound (config s))) (memory s) entries.
Proof.
  unfold Run.remember_all.
  induction entries as [| e entries IH]; intros s; [reflexivity |].
  cbn [foldl]. rewrite IH. reflexivity.
Qed.

Lemma foldl_append_bounded (cap : nat) entries : ∀ log,
  (length log <= cap)%nat →
  foldl (append_bounded (Z.of_nat cap)) log entries = last_n cap (log ++ entries).
Proof.
  induction entries as [| e entries IH]; intros log Hlen.
  - rewrite app_nil_r. unfold last_n. simpl.
    replace (length log - cap)%nat with 0%nat by lia. reflexivity.
  - cbn [foldl]. rewrite IH.
    + rewrite append_bounded_last_n by done. apply last_n_snoc.
    + rewrite append_bounded_last_n, last_n_length by done. lia.
Qed.

(** The size bound is an invariant of appending. *)
Lemma remember_all_within_capacity (cap : nat) s entries :
  memory_bound (config s) = Z.of_nat cap →
  (length (memory s) <= cap)%nat →
  (length (memory (Run.remember_all entries s)) <= cap)%nat.
Proof.
  intros Hcap Hlog.
  rewrite memory_remember_all, Hcap, foldl_append_bounded, last_n_length by done. lia.
Qed.

(** C1. Appending more entries than the capacity to a memory log that is
    within its capacity leaves exactly the last [max_memory] appended
    entries, in insertion order, so the size equals [max_memory]; and one
    append either keeps everything or drops just the oldest entry. *)
Theorem add_to_memory_keeps_newest (cap : nat) s entries :
  memory_bound (config s) = Z.of_nat cap →
  (length (memory s) <= cap)%nat →
  (cap < length entries)%nat →
  (memory (Run.remember_all entries s) = last_n cap entries ∧
   length (memory (Run.remember_all entries s)) = cap) ∧
  (∀ s0 e,
     memory (Run.after (add_to_memory e) s0) = memory s0 ++ [e] ∨
     memory (Run.after (add_to_memory e) s0) = drop 1 (memory s0 ++ [e])).
Proof.
  intros Hcap Hlog Hmany. split.
  - assert (memory (Run.remember_all entries s) = last_n cap entries) as ->.
    { rewrite memory_remember_all, Hcap, foldl_append_bounded by done.
      unfold last_n. rewrite length_app, drop_app_ge by lia.
      f_equal. lia. }
    split; [reflexivity |]. rewrite last_n_length. lia.
  - intros s0 e. apply append_bounded_cases.
Qed.

Lemma add_to_memory_keeps_newest_witness :
  memory (Run.remember_all (Sample.entry <$> [1; 2; 3; 4; 5]%Z) Sample.small_agent)
  = [Sample.entry 4; Sample.entry 5].
Proof.
  refine (proj1 (proj1 (add_to_memory_keeps_newest 2 Sample.small_agent
                          (Sample.entry <$> [1; 2; 3; 4; 5]%Z) _ _ _)));
    [reflexivity | simpl; lia | simpl; lia].
Defined.

(** A bound below zero is no capacity: every append is undone at once. *)
Lemma append_bounded_negative bound e :
  (bound < 0)%Z → append_bounded bound [] e = [].
Proof.
  intros Hneg. unfold append_bounded. simpl length.
  destruct (Z.gtb_spec (Z.of_nat 1) bound); [reflexivity | lia].
Qed.

Lemma recent_positive (limit : Z) log :
  (0 < limit)%Z →
  recent limit log = last_n (Z.to_nat limit) log.
Proof.
  intros Hpos. unfold recent, slice_from, last_n.
  destruct (Z.ltb_spec (- limit) 0) as [_ | Hge]; [| lia].
  f_equal. lia.
Qed.

Lemma recent_positive_length (limit : Z) log :
  (0 < limit)%Z →
  length (recent limit log) = Nat.min (Z.to_nat limit) (length log).
Proof. intros Hpos. rewrite recent_positive by done. apply last_n_length. Qed.

Lemma recent_zero log : recent 0 log = log.
Proof. unfold recent, slice_from. simpl. rewrite Z.min_l by lia. reflexivity. Qed.

Lemma get_memory_pure limit s : Run.after (get_memory limit) s = s.
Proof. reflexivity. Qed.

(** C3. [get_memory(0)] on a log of two entries returns both of them,
    where the last [min(0, 2) = 0] entries are none: [self.memory[-0:]] is
    the whole list. *)
Theorem get_memory_zero_limit_returns_whole_log :
  get_memory (Some 0%Z) Sample.two_entries
  = (inr [Sample.entry 1; Sample.entry 2], Sample.two_entries) ∧
  length (recent 0 (memory Sample.two_entries)) = 2%nat ∧
  Z.min 0 (Z.of_nat (length (memory Sample.two_entries))) = 0%Z.
Proof. repeat split. Qed.

End MemoryLog.

(** ** The task agent *)

Section TaskAgentFacts.

Import Py.
Import TaskAgent.
Local Open Scope string_scope.

Implicit Types (task : dict) (s : TaskAgent.state) (r : value).

(** [process] in one step: a closed record is appended to
    [completed_tasks] and returned; an exception that is no [Exception]
    goes through and nothing is appended; the queue is not touched. *)
Lemma process_task_outcome task s :
  process task s =
  match Run.task_outcome task (base s) with
  | (inr result, b') =>
      (inr (VDict result),
       mkState b' (task_queue s) (completed_tasks s ++ [VDict result])%list)
  | (inl e, b') => (inl e, mkState b' (task_queue s) (completed_tasks s))
  end.
Proof.
  unfold process, Run.task_outcome, Run.handled, has_plugin, on_base,
    BaseAgent.execute_plugin.
  unfold mbind, eff_bind, mret, eff_ret, Eff.bind, Eff.try_except, Eff.zoom, Eff.ret,
    Eff.modify, Eff.raise.
  destruct s as [b q done]. cbn [base task_queue completed_tasks set_base].
  destruct (BaseAgent.find_plugin (get task "type" VNone) (BaseAgent.plugins b))
    as [e | [[key p] |]] eqn:Hfind; cbn [bool_decide]; simpl.
  - destruct (exn_is_exception e); reflexivity.
  - rewrite Hfind.
    destruct (BaseAgent.call_execute key p (get task "data" VNone) b) as [[e | v] b'];
      [destruct (exn_is_exception e) |]; reflexivity.
  - reflexivity.
Qed.

Lemma failed_fields msg task :
  item (VDict (failed msg (pending task))) "status" = Some (VStr "failed") ∧
  item (VDict (failed msg (pending task))) "error" = Some (VStr msg) ∧
  item (VDict (failed msg (pending task))) "result" = Some VNone ∧
  item (VDict (failed msg (pending task))) "task" = Some (VDict task).
Proof. repeat split. Qed.

Lemma completed_fields v task :
  item (VDict (completed v (pending task))) "status" = Some (VStr "completed") ∧
  item (VDict (completed v (pending task))) "result" = Some v ∧
  item (VDict (completed v (pending task))) "error" = None ∧
  item (VDict (completed v (pending task))) "task" = Some (VDict task).
Proof. repeat split. Qed.

Lemma find_plugin_Some (k : value) (m : gmap string BaseAgent.Plugin) key p :
  BaseAgent.find_plugin k m = inr (Some (key, p)) → k = VStr key ∧ m !! key = Some p.
Proof.
  destruct k as [[| | | key'] | |]; try discriminate. cbn [BaseAgent.find_plugin].
  destruct (m !! key') as [p' |] eqn:Hp; [| discriminate].
  intros [= <- <-]. done.
Qed.

(** The membership test raises [TypeError] only, which is an [Exception]. *)
Lemma find_plugin_raises (k : value) (m : gmap string BaseAgent.Plugin) e :
  BaseAgent.find_plugin k m = inl e → exn_is_exception e = true.
Proof. destruct k as [[| | | key] | |]; try discriminate; by intros [= <-]. Qed.

Lemma handled_returns task e result :
  Run.handled task e = inr result →
  exn_is_exception e = true ∧ result = failed (exn_msg e) (pending task).
Proof. unfold Run.handled. destruct (exn_is_exception e); [by intros [= <-] | done]. Qed.

Lemma handled_raises task e e' :
  Run.handled task e = inl e' → exn_is_exception e = false ∧ e' = e.
Proof. unfold Run.handled. destruct (exn_is_exception e); [done | by intros [= <-]]. Qed.

(** A closed record carries its task, and its status is completed or
    failed. *)
Lemma task_outcome_returns task b result b' :
  Run.task_outcome task b = (inr result, b') →
  item (VDict result) "task" = Some (VDict task) ∧
  (item (VDict result) "status" = Some (VStr "completed") ∨
   item (VDict result) "status" = Some (VStr "failed")).
Proof.
  unfold Run.task_outcome.
  destruct (BaseAgent.find_plugin _ _) as [e | [[key p] |]].
  - intros [= [_ ->]%handled_returns _]. split; [reflexivity | by right].
  - destruct (BaseAgent.call_execute _ _ _ _) as [[e | v] b''].
    + intros [= [_ ->]%handled_returns _]. split; [reflexivity | by right].
    + intros [= <- _]. split; [reflexivity | by left].
  - intros [= <- _]. split; [reflexivity | by right].
Qed.

(** The only exception [process] lets through is one that a plugin's
    [execute] raised and that is no [Exception]. *)
Lemma task_outcome_raises task b e b' :
  Run.task_outcome task b = (inl e, b') →
  exn_is_exception e = false ∧
  ∃ key p self',
    get task "type" VNone = VStr key ∧
    BaseAgent.plugins b !! key = Some p ∧
    BaseAgent.plugin_execute p (BaseAgent.plugin_self p) (get task "data" VNone)
      = (inl e, self').
Proof.
  unfold Run.task_outcome.
  destruct (BaseAgent.find_plugin _ _) as [e0 | [[key p] |]] eqn:Hfind.
  - intros [= [Hexit ->]%handled_raises _].
    apply find_plugin_raises in Hfind. congruence.
  - apply find_plugin_Some in Hfind as [Htype Hp].
    unfold BaseAgent.call_execute.
    destruct (BaseAgent.plugin_execute p (BaseAgent.plugin_self p) _)
      as [[e0 | v] self'] eqn:Hexec; [| discriminate].
    intros [= [Hexit ->]%handled_raises _]. split; [done |].
    by exists key, p, self'.
  - discriminate.
Qed.

(** A call of [process] that raises has filed nothing, and what it raises
    is no [Exception]. *)
Lemma process_raises_inv task s e s' :
  process task s = (inl e, s') →
  exn_is_exception e = false ∧ completed_tasks s' = completed_tasks s.
Proof.
  rewrite process_task_outcome.
  destruct (Run.task_outcome task (base s)) as [[e0 | result] b'] eqn:Hout;
    [| discriminate].
  intros [= <- <-]. by apply task_outcome_raises in Hout as [Hexit _].
Qed.

(** Looking up the type of a task nobody serves finds nothing or raises;
    it never finds a plugin. *)
Lemma find_plugin_unregistered (k : value) (m : gmap string BaseAgent.Plugin) :
  (∀ key, k = VStr key → m !! key = None) →
  match BaseAgent.find_plugin k m with
  | inr (Some _) => False
  | _ => True
  end.
Proof.
  intros Hnone. destruct k as [[| | | key] | |]; simpl; try exact I.
  rewrite (Hnone key eq_refl). exact I.
Qed.

Lemma task_outcome_registered task b key p :
  get task "type" VNone = VStr key →
  BaseAgent.plugins b !! key = Some p →
  Run.task_outcome task b =
  match BaseAgent.call_execute key p (get task "data" VNone) b with
  | (inl e, b') => (Run.handled task e, b')
  | (inr v, b') => (inr (completed v (pending task)), b')
  end.
Proof.
  intros Htype Hp. unfold Run.task_outcome. rewrite Htype.
  cbn [BaseAgent.find_plugin]. rewrite Hp. reflexivity.
Qed.

(** C4, as the code has it. A task whose type has no registered plugin is
    reported failed and no plugin's [execute] is called; a task whose
    plugin raises an [Exception] is reported failed with the exception's
    message; a task whose plugin returns is reported completed with the
    returned value. [process] does raise in one case, and in that case
    only: when the plugin raises an exception that is no [Exception]
    ([SystemExit], [KeyboardInterrupt]), it goes through and no record is
    filed. *)
Theorem process_reports_every_exception task s :
  ((∀ key, get task "type" VNone = VStr key → BaseAgent.plugins (base s) !! key = None) →
   ∃ r s', process task s = (inr r, s') ∧
     item r "status" = Some (VStr "failed") ∧
     BaseAgent.trace (base s') = BaseAgent.trace (base s) ∧
     BaseAgent.plugins (base s') = BaseAgent.plugins (base s)) ∧
  (∀ key p e self',
     get task "type" VNone = VStr key →
     BaseAgent.plugins (base s) !! key = Some p →
     BaseAgent.plugin_execute p (BaseAgent.plugin_self p) (get task "data" VNone)
       = (inl e, self') →
     exn_is_exception e = true →
     ∃ r s', process task s = (inr r, s') ∧
       item r "status" = Some (VStr "failed") ∧
       item r "error" = Some (VStr (exn_msg e)) ∧
       BaseAgent.trace (base s') =
         (BaseAgent.trace (base s)
            ++ [BaseAgent.Executed key (get task "data" VNone)])%list) ∧
  (∀ key p v self',
     get task "type" VNone = VStr key →
     BaseAgent.plugins (base s) !! key = Some p →
     BaseAgent.plugin_execute p (BaseAgent.plugin_self p) (get task "data" VNone)
       = (inr v, self') →
     ∃ r s', process task s = (inr r, s') ∧
       item r "status" = Some (VStr "completed") ∧
       item r "result" = Some v ∧
       item r "error" = None ∧
       BaseAgent.trace (base s') =
         (BaseAgent.trace (base s)
            ++ [BaseAgent.Executed key (get task "data" VNone)])%list) ∧
  (∀ key p e self',
     get task "type" VNone = VStr key →
     BaseAgent.plugins (base s) !! key = Some p →
     BaseAgent.plugin_execute p (BaseAgent.plugin_self p) (get task "data" VNone)
       = (inl e, self') →
     exn_is_exception e = false →
     ∃ s', process task s = (inl e, s') ∧ completed_tasks s' = completed_tasks s) ∧
  (∀ e s',
     process task s = (inl e, s') →
     exn_is_exception e = false ∧
     ∃ key p self',
       get task "type" VNone = VStr key ∧
       BaseAgent.plugins (base s) !! key = Some p ∧
       BaseAgent.plugin_execute p (BaseAgent.plugin_self p) (get task "data" VNone)
         = (inl e, self')).
Proof.
  rewrite process_task_outcome. repeat apply conj.
  - intros Hnone. apply find_plugin_unregistered in Hnone.
    unfold Run.task_outcome. cbn [base].
    destruct (BaseAgent.find_plugin _ _) as [e | [[key p] |]] eqn:Hfind; [| done |].
    + apply find_plugin_raises in Hfind. unfold Run.handled. rewrite Hfind.
      eexists _, _. repeat split.
    + eexists _, _. repeat split.
  - intros key p e self' Htype Hp Hexec Hexc.
    rewrite (task_outcome_registered task _ key p) by done.
    unfold BaseAgent.call_execute, Run.handled. rewrite Hexec, Hexc.
    eexists _, _. repeat split.
  - intros key p v self' Htype Hp Hexec.
    rewrite (task_outcome_registered task _ key p) by done.
    unfold BaseAgent.call_execute. rewrite Hexec.
    eexists _, _. repeat split.
  - intros key p e self' Htype Hp Hexec Hexit.
    rewrite (task_outcome_registered task _ key p) by done.
    unfold BaseAgent.call_execute, Run.handled. rewrite Hexec, Hexit.
    eexists. split; reflexivity.
  - intros e s'.
    destruct (Run.task_outcome task (base s)) as [[e0 | result] b'] eqn:Hout;
      [| discriminate].
    intros [= <- _]. by apply task_outcome_raises in Hout.
Qed.

Lemma process_reports_every_exception_witness :
  (∃ r s', process [("type", VStr "unknown")] Sample.worker = (inr r, s') ∧
     item r "status" = Some (VStr "failed") ∧
     BaseAgent.trace (base s') = [] ∧
     BaseAgent.plugins (base s') = BaseAgent.plugins (base Sample.worker)) ∧
  (∃ r s', process [("type", VStr "bad")] Sample.worker = (inr r, s') ∧
     item r "status" = Some (VStr "failed") ∧
     item r "error" = Some (VStr "service down") ∧
     BaseAgent.trace (base s') = [BaseAgent.Executed "bad" VNone]) ∧
  (∃ r s', process [("type", VStr "echo"); ("data", VInt 1)] Sample.worker = (inr r, s') ∧
     item r "status" = Some (VStr "completed") ∧
     item r "result" = Some (VList [VInt 1]) ∧
     item r "error" = None ∧
     BaseAgent.trace (base s') = [BaseAgent.Executed "echo" (VInt 1)]) ∧
  (∃ s', process [("type", VStr "quit")] Sample.exit_worker = (inl (SystemExit "0"), s') ∧
     completed_tasks s' = []) ∧
  exn_is_exception (SystemExit "0") = false.
Proof.
  split; [| split; [| split; [| split]]].
  - apply (proj1 (process_reports_every_exception
                    [("type", VStr "unknown")] Sample.worker)).
    intros key [= <-]. vm_compute. reflexivity.
  - apply (proj1 (proj2 (process_reports_every_exception
                           [("type", VStr "bad")] Sample.worker))
             "bad" Sample.broken (Raise "RuntimeError" "service down") VNone);
      [reflexivity | vm_compute; reflexivity | reflexivity | reflexivity].
  - apply (proj1 (proj2 (proj2 (process_reports_every_exception
                                  [("type", VStr "echo"); ("data", VInt 1)] Sample.worker)))
             "echo" Sample.echo (VList [VInt 1]) (VInt 1));
      [reflexivity | vm_compute; reflexivity | reflexivity].
  - apply (proj1 (proj2 (proj2 (proj2 (process_reports_every_exception
                                         [("type", VStr "quit")] Sample.exit_worker))))
             "quit" Sample.exiting (SystemExit "0") VNone);
      [reflexivity | vm_compute; reflexivity | reflexivity | reflexivity].
  - refine (proj1 (proj2 (proj2 (proj2 (proj2 (process_reports_every_exception
                                                 [("type", VStr "quit")] Sample.exit_worker))))
                     (SystemExit "0")
                     (Run.after (process [("type", VStr "quit")]) Sample.exit_worker) _)).
    reflexivity.
Defined.

(** C4, as stated, fails on a plugin that exits: [process] raises. *)
Lemma process_raises_on_exiting_plugin :
  process [("type", VStr "quit")] Sample.exit_worker
    = (inl (SystemExit "0"),
       Run.after (process [("type", VStr "quit")]) Sample.exit_worker) ∧
  ¬ ∃ r s', process [("type", VStr "quit")] Sample.exit_worker = (inr r, s').
Proof.
  split; [reflexivity |]. intros (r & s' & Hrun). vm_compute in Hrun. discriminate Hrun.
Qed.

(** C9, as the code has it. The record a call of [process] returns is
    closed, its status is completed or failed and never the initial
    pending, and it is the one record added to [completed_tasks], hence the
    last one there. A call that raises (its plugin raised an exception that
    is no [Exception]) returns no record and adds none. *)
Theorem process_files_the_record_it_returns task s :
  (∀ r s',
     process task s = (inr r, s') →
     (item r "status" = Some (VStr "completed") ∨ item r "status" = Some (VStr "failed")) ∧
     item r "status" ≠ Some (VStr "pending") ∧
     completed_tasks s' = (completed_tasks s ++ [r])%list ∧
     last (completed_tasks s') = Some r) ∧
  (∀ e s',
     process task s = (inl e, s') →
     exn_is_exception e = false ∧ completed_tasks s' = completed_tasks s).
Proof.
  rewrite process_task_outcome.
  destruct (Run.task_outcome task (base s)) as [[e0 | result] b'] eqn:Hout.
  - split; [discriminate |]. intros e s' [= <- <-].
    apply task_outcome_raises in Hout as [Hexit _]. done.
  - split; [| discriminate]. intros r s' [= <- <-].
    apply task_outcome_returns in Hout as [_ Hstatus]. cbn [completed_tasks].
    repeat split; [exact Hstatus | | apply last_snoc].
    destruct Hstatus as [-> | ->]; discriminate.
Qed.

Lemma process_files_the_record_it_returns_witness :
  last (completed_tasks (Run.after (process [("type", VStr "bad")]) Sample.worker))
    = Some (VDict (failed "service down" (pending [("type", VStr "bad")]))) ∧
  completed_tasks (Run.after (process [("type", VStr "quit")]) Sample.exit_worker) = [].
Proof.
  split.
  - refine (proj2 (proj2 (proj2
              (proj1 (process_files_the_record_it_returns
                        [("type", VStr "bad")] Sample.worker)
                 (VDict (failed "service down" (pending [("type", VStr "bad")])))
                 (Run.after (process [("type", VStr "bad")]) Sample.worker) _)))).
    reflexivity.
  - refine (proj2 (proj2 (process_files_the_record_it_returns
                            [("type", VStr "quit")] Sample.exit_worker)
                     (SystemExit "0")
                     (Run.after (process [("type", VStr "quit")]) Sample.exit_worker) _)).
    reflexivity.
Defined.

(** C9, as stated, fails on a plugin that exits: no record is returned and
    none is filed. *)
Lemma process_files_nothing_on_exiting_plugin :
  completed_tasks (Run.after (process [("type", VStr "quit")]) Sample.exit_worker)
    = completed_tasks Sample.exit_worker ∧
  ¬ Run.files_closed_record [("type", VStr "quit")] Sample.exit_worker.
Proof.
  split; [reflexivity |]. intros (r & s' & Hrun & _). vm_compute in Hrun.
  discriminate Hrun.
Qed.

(** Running [process] over a list of tasks: when every call returns, the
    queue is left alone, the results are added to [completed_tasks] in call
    order, and the i-th result is the record of the i-th task. *)
Lemma process_each_spec (tasks : list dict) : ∀ s results s',
  Run.process_each tasks s = (inr results, s') →
  task_queue s' = task_queue s ∧
  completed_tasks s' = (completed_tasks s ++ results)%list ∧
  (λ r, item r "task") <$> results = (λ t, Some (VDict t)) <$> tasks.
Proof.
  induction tasks as [| task tasks IH]; intros s results s'.
  - intros [= <- <-]. rewrite app_nil_r. done.
  - cbn [Run.process_each]. rewrite process_task_outcome.
    destruct (Run.task_outcome task (base s)) as [[e | result] b'] eqn:Hout;
      [discriminate |].
    destruct (Run.process_each tasks _) as [[e | rs] s''] eqn:Hrest; [discriminate |].
    intros [= <- <-]. apply IH in Hrest as (Hq & Hdone & Htasks).
    rewrite Hq, Hdone. cbn [task_queue completed_tasks].
    split; [reflexivity |]. split; [by rewrite <- (assoc_L (++)) |].
    rewrite !fmap_cons, Htasks. f_equal.
    by apply task_outcome_returns in Hout as [-> _].
Qed.

(** The queue plays no part in [process]. *)
Lemma process_set_queue task q s :
  process task (set_queue q s) =
  ((process task s).1, set_queue q (process task s).2).
Proof.
  rewrite !process_task_outcome. cbn [base set_queue].
  destruct (Run.task_outcome task (base s)) as [[e | result] b']; reflexivity.
Qed.

Lemma process_queue_loop_spec (tasks : list dict) : ∀ s acc fuel results s',
  task_queue s = tasks →
  (length tasks < fuel)%nat →
  Run.process_each tasks (set_queue [] s) = (inr results, s') →
  process_queue_loop fuel acc s = Some (inr (acc ++ results)%list, s').
Proof.
  induction tasks as [| task tasks IH]; intros s acc fuel results s' Hq Hfuel Heach.
  - destruct fuel as [| fuel]; [simpl in Hfuel; lia |].
    cbn [process_queue_loop]. rewrite Hq.
    cbn [Run.process_each] in Heach. injection Heach as <- <-.
    rewrite app_nil_r. destruct s; cbn in Hq; subst; reflexivity.
  - destruct fuel as [| fuel]; [simpl in Hfuel; lia |].
    cbn [process_queue_loop]. rewrite Hq.
    cbn [Run.process_each] in Heach.
    rewrite process_set_queue in Heach |- *.
    destruct (process task s) as [[e | r] s1] eqn:Hproc; [discriminate |].
    cbn [fst snd] in Heach |- *.
    destruct (Run.process_each tasks (set_queue [] s1)) as [[e | rs] s2] eqn:Hrest;
      [discriminate |].
    injection Heach as <- <-.
    rewrite (IH (set_queue tasks s1) (acc ++ [r])%list fuel rs s2).
    + by rewrite <- (assoc_L (++)).
    + reflexivity.
    + simpl in Hfuel. lia.
    + exact Hrest.
Qed.

Lemma process_queue_loop_raises (served : list dict) :
  ∀ s acc fuel bad rest results s1 e s2,
  task_queue s = (served ++ bad :: rest)%list →
  (length (served ++ bad :: rest) < fuel)%nat →
  Run.process_each served (set_queue [] s) = (inr results, s1) →
  process bad s1 = (inl e, s2) →
  process_queue_loop fuel acc s = Some (inl e, set_queue rest s2).
Proof.
  induction served as [| task served IH];
    intros s acc fuel bad rest results s1 e s2 Hq Hfuel Heach Hbad.
  - destruct fuel as [| fuel]; [simpl in Hfuel; lia |].
    cbn [process_queue_loop]. rewrite Hq. cbn [app].
    cbn [Run.process_each] in Heach. injection Heach as <- <-.
    rewrite process_set_queue in Hbad |- *.
    destruct (process bad s) as [outcome s3]. cbn [fst snd] in Hbad |- *.
    injection Hbad as -> <-. reflexivity.
  - destruct fuel as [| fuel]; [simpl in Hfuel; lia |].
    cbn [process_queue_loop]. rewrite Hq. cbn [app].
    cbn [Run.process_each] in Heach.
    rewrite process_set_queue in Heach |- *.
    destruct (process task s) as [[e0 | r] s3] eqn:Hproc; [discriminate |].
    cbn [fst snd] in Heach |- *.
    destruct (Run.process_each served (set_queue [] s3)) as [[e0 | rs] s4] eqn:Hrest;
      [discriminate |].
    injection Heach as <- <-.
    apply (IH (set_queue (served ++ bad :: rest) s3) (acc ++ [r])%list fuel bad rest rs s4);
      [reflexivity | simpl in Hfuel; lia | exact Hrest | exact Hbad].
Qed.

(** C7, as the code has it. [process_queue] calls [process] on the queued
    tasks one after another in arrival order. When every call returns, it
    returns the records in that order, one per task, and leaves the queue
    empty. When a call raises (its plugin raised an exception that is no
    [Exception]), [process_queue] raises that exception: the records of the
    tasks before it are filed, the raising task has left the queue and the
    tasks after it are still queued. Enough fuel for the loop to see the
    queue empty is all either case needs. *)
Theorem process_queue_drains_until_a_call_raises s :
  (∀ results s',
     Run.process_each (task_queue s) (set_queue [] s) = (inr results, s') →
     (∀ fuel, (length (task_queue s) < fuel)%nat →
              process_queue fuel s = Some (inr results, s')) ∧
     (λ r, item r "task") <$> results = (λ t, Some (VDict t)) <$> task_queue s ∧
     completed_tasks s' = (completed_tasks s ++ results)%list ∧
     task_queue s' = []) ∧
  (∀ served bad rest results s1 e s2,
     task_queue s = (served ++ bad :: rest)%list →
     Run.process_each served (set_queue [] s) = (inr results, s1) →
     process bad s1 = (inl e, s2) →
     (∀ fuel, (length (task_queue s) < fuel)%nat →
              process_queue fuel s = Some (inl e, set_queue rest s2)) ∧
     completed_tasks s2 = (completed_tasks s ++ results)%list ∧
     exn_is_exception e = false).
Proof.
  split.
  - intros results s' Heach.
    destruct (process_each_spec _ _ _ _ Heach) as (Hq & Hdone & Htasks).
    repeat split; try done.
    intros fuel Hfuel. unfold process_queue.
    by rewrite (process_queue_loop_spec (task_queue s) s [] fuel results s').
  - intros served bad rest results s1 e s2 Hq Heach Hbad.
    destruct (process_each_spec _ _ _ _ Heach) as (_ & Hdone & _).
    destruct (process_raises_inv _ _ _ _ Hbad) as [Hexit Hsame].
    repeat split; [| by rewrite Hsame | exact Hexit].
    intros fuel Hfuel. unfold process_queue.
    apply (process_queue_loop_raises served s [] fuel bad rest results s1);
      [exact Hq | by rewrite <- Hq | exact Heach | exact Hbad].
Qed.

Lemma process_queue_drains_until_a_call_raises_witness :
  (∃ results s',
     process_queue 5 Sample.worker = Some (inr results, s') ∧ task_queue s' = []) ∧
  (∃ s',
     process_queue 4 Sample.exit_worker = Some (inl (SystemExit "0"), s') ∧
     task_queue s' = [[("type", VStr "echo"); ("data", VInt 2)]]).
Proof.
  split.
  - destruct (Run.process_each (task_queue Sample.worker) (set_queue [] Sample.worker))
      as [[e | results] s'] eqn:Heach; [vm_compute in Heach; discriminate Heach |].
    destruct (proj1 (process_queue_drains_until_a_call_raises Sample.worker)
                results s' Heach) as (Hrun & _ & _ & Hempty).
    exists results, s'. split; [apply Hrun; simpl; lia | exact Hempty].
  - destruct (Run.process_each [[("type", VStr "echo"); ("data", VInt 1)]]
                (set_queue [] Sample.exit_worker))
      as [[e | results] s1] eqn:Heach; [vm_compute in Heach; discriminate Heach |].
    destruct (proj2 (process_queue_drains_until_a_call_raises Sample.exit_worker)
                [[("type", VStr "echo"); ("data", VInt 1)]]
                [("type", VStr "quit")]
                [[("type", VStr "echo"); ("data", VInt 2)]]
                results s1 (SystemExit "0")
                (Run.after (process [("type", VStr "quit")]) s1)
                eq_refl Heach) as (Hrun & _).
    { vm_compute in Heach. injection Heach as <- <-. reflexivity. }
    eexists. split; [apply Hrun; simpl; lia | reflexivity].
Defined.

(** C7, as stated, fails on a queue with a task whose plugin exits: however
    much fuel the loop gets, the drain returns no list of records, and it
    ends with the later task still queued. *)
Lemma process_queue_stops_at_exiting_plugin :
  (∀ fuel, ¬ Run.drains_whole_queue fuel Sample.exit_worker) ∧
  ∃ s', process_queue 4 Sample.exit_worker = Some (inl (SystemExit "0"), s') ∧
        task_queue s' = [[("type", VStr "echo"); ("data", VInt 2)]].
Proof.
  split.
  - intros fuel (results & s' & Hrun & _).
    destruct fuel as [| [| [| fuel]]]; vm_compute in Hrun; discriminate Hrun.
  - eexists. split; reflexivity.
Qed.

End TaskAgentFacts.

(** ** The conversational agent *)

Section ConversationalAgentFacts.

Import Py.
Import ConversationalAgent.
Local Open Scope string_scope.

Implicit Types (user_input : string) (s : ConversationalAgent.state).

Ltac run_eff :=
  unfold mbind, eff_bind, mret, eff_ret, Eff.bind, Eff.try_except, Eff.zoom, Eff.ret,
    Eff.modify, Eff.raise, Eff.gets, Eff.lift.

Lemma loaded_true key s :
  loaded key s = true → ∃ p, BaseAgent.plugins (base s) !! key = Some p.
Proof.
  unfold loaded. intros H%bool_decide_eq_true. destruct H as [p Hp]. eauto.
Qed.

Lemma execute_plugin_loaded key p arg (b : BaseAgent.state) :
  BaseAgent.plugins b !! key = Some p →
  BaseAgent.execute_plugin (VStr key) arg b = BaseAgent.call_execute key p arg b.
Proof.
  intros Hp. unfold BaseAgent.execute_plugin. run_eff.
  cbn [BaseAgent.find_plugin]. rewrite Hp. reflexivity.
Qed.

(** The first routing rule. *)
Lemma generate_response_search user_input s p :
  PyStr.contains "search" (PyStr.lower user_input) = true →
  BaseAgent.plugins (base s) !! "web_search" = Some p →
  _generate_response user_input s =
  on_base (BaseAgent.call_execute "web_search" p (VStr (search_query user_input))) s.
Proof.
  intros Hin Hp. unfold _generate_response. run_eff.
  rewrite Hin. unfold loaded at 1. rewrite Hp.
  rewrite bool_decide_eq_true_2 by eauto. cbn [andb].
  unfold on_base, Eff.zoom. by rewrite (execute_plugin_loaded _ p).
Qed.

(** Either a loaded plugin is called, or a canned answer is returned and
    nothing changes. *)
Lemma generate_response_cases user_input s :
  (∃ key p arg,
     BaseAgent.plugins (base s) !! key = Some p ∧
     _generate_response user_input s = on_base (BaseAgent.call_execute key p arg) s) ∨
  (∃ answer, _generate_response user_input s = (inr answer, s)).
Proof.
  unfold _generate_response. run_eff.
  destruct (PyStr.contains "search" (PyStr.lower user_input) && loaded "web_search" s)
    eqn:Hsearch.
  - apply andb_prop in Hsearch as [_ [p Hp]%loaded_true].
    left. exists "web_search", p, (VStr (search_query user_input)).
    split; [done |]. unfold on_base, Eff.zoom. by rewrite (execute_plugin_loaded _ p).
  - destruct (PyStr.contains "calculate" (PyStr.lower user_input) && loaded "calculator" s)
      eqn:Hcalc.
    + apply andb_prop in Hcalc as [_ [p Hp]%loaded_true].
      left. exists "calculator", p, (VStr user_input).
      split; [done |]. unfold on_base, Eff.zoom. by rewrite (execute_plugin_loaded _ p).
    + right. destruct (existsb _ greetings); eauto.
Qed.

(** Calling a plugin leaves the memory and the configuration alone. *)
Lemma call_execute_frame key p arg (b : BaseAgent.state) :
  BaseAgent.memory (BaseAgent.call_execute key p arg b).2 = BaseAgent.memory b ∧
  BaseAgent.config (BaseAgent.call_execute key p arg b).2 = BaseAgent.config b ∧
  BaseAgent.trace (BaseAgent.call_execute key p arg b).2 =
    (BaseAgent.trace b ++ [BaseAgent.Executed key arg])%list ∧
  (BaseAgent.call_execute key p arg b).1 =
    (BaseAgent.plugin_execute p (BaseAgent.plugin_self p) arg).1.
Proof.
  unfold BaseAgent.call_execute.
  destruct (BaseAgent.plugin_execute p (BaseAgent.plugin_self p) arg); repeat split.
Qed.

(** C2, as the code has it. A call of [process] that returns has added the
    user turn and the assistant turn to the history, in that order, and
    put their combined record through [add_to_memory], whichever rule
    answered. A call whose plugin raises lets the exception through: the
    user turn is in the history, no assistant turn follows it, and the
    memory log is as before. *)
Theorem process_records_exchange_when_it_returns user_input s :
  match process user_input s with
  | (inr response, s') =>
      conversation_history s' =
        (conversation_history s
           ++ [turn "user" (VStr user_input); turn "assistant" response])%list ∧
      BaseAgent.memory (base s') =
        BaseAgent.append_bounded (BaseAgent.memory_bound (BaseAgent.config (base s)))
          (BaseAgent.memory (base s)) (exchange user_input response)
  | (inl e, s') =>
      conversation_history s' =
        (conversation_history s ++ [turn "user" (VStr user_input)])%list ∧
      BaseAgent.memory (base s') = BaseAgent.memory (base s) ∧
      ∃ key arg,
        BaseAgent.trace (base s') =
          (BaseAgent.trace (base s) ++ [BaseAgent.Executed key arg])%list
  end.
Proof.
  unfold process, append_history. run_eff.
  set (s1 := mkState (base s) (conversation_history s ++ [turn "user" (VStr user_input)])).
  destruct (generate_response_cases user_input s1)
    as [(key & p & arg & _ & ->) | (answer & ->)].
  - unfold on_base, Eff.zoom. cbn [base s1].
    destruct (call_execute_frame key p arg (base s)) as (Hmem & Hcfg & Htrace & _).
    destruct (BaseAgent.call_execute key p arg (base s)) as [[e | response] b'].
    + cbn [snd] in *. cbn. eauto.
    + cbn [snd] in *. cbn. rewrite Hmem, Hcfg, <- (assoc_L (++)). done.
  - cbn. by rewrite <- (assoc_L (++)).
Qed.

(** C2, as stated, fails when the routed plugin raises: with a [web_search]
    plugin that raises, [process("search news")] raises after the user
    turn was added, and no full exchange is recorded. *)
Lemma process_broken_search_records_no_exchange :
  process "search news" Sample.chat_broken_search =
    (inl (Raise "RuntimeError" "service down"),
     Run.after (process "search news") Sample.chat_broken_search) ∧
  conversation_history (Run.after (process "search news") Sample.chat_broken_search)
    = [turn "user" (VStr "search news")] ∧
  ¬ Run.records_exchange "search news" Sample.chat_broken_search
      (Run.after (process "search news") Sample.chat_broken_search).
Proof.
  split; [reflexivity |]. split; [reflexivity |].
  intros (response & Hhistory & _). vm_compute in Hhistory. discriminate Hhistory.
Qed.

(** C5. For an input of ASCII text: when the lower-cased input contains
    "search" and a plugin is loaded under [web_search], [process] calls
    that plugin's [execute] once, with the input from which every "search"
    was removed and the surrounding whitespace stripped, and its outcome is
    the plugin's: the value returned, or the exception raised. *)
Theorem process_routes_search_to_web_search user_input s p outcome self' :
  PyStr.isascii user_input = true →
  PyStr.contains "search" (PyStr.lower user_input) = true →
  BaseAgent.plugins (base s) !! "web_search" = Some p →
  BaseAgent.plugin_execute p (BaseAgent.plugin_self p)
    (VStr (PyStr.strip (PyStr.replace "search" "" user_input))) = (outcome, self') →
  ∃ s', process user_input s = (outcome, s') ∧
    BaseAgent.trace (base s') =
      (BaseAgent.trace (base s)
         ++ [BaseAgent.Executed "web_search"
               (VStr (PyStr.strip (PyStr.replace "search" "" user_input)))])%list.
Proof.
  intros _ Hin Hp Hexec. unfold process, append_history. run_eff.
  rewrite (generate_response_search user_input _ p) by done.
  unfold on_base, Eff.zoom, BaseAgent.call_execute, search_query. cbn [base].
  rewrite Hexec. destruct outcome as [e | response]; eexists; split; reflexivity.
Qed.

Lemma process_routes_search_to_web_search_witness :
  ∃ s', process "search  the weather " Sample.chat_search
        = (inr (VList [VStr "the weather"]), s') ∧
    BaseAgent.trace (base s') = [BaseAgent.Executed "web_search" (VStr "the weather")].
Proof.
  apply (process_routes_search_to_web_search "search  the weather " Sample.chat_search
           Sample.echo (inr (VList [VStr "the weather"])) (VInt 1));
    [reflexivity | reflexivity | vm_compute; reflexivity | reflexivity].
Defined.

End ConversationalAgentFacts.

(** ** Loading plugins *)

Section LoadPluginFacts.

Import Py.
Import BaseAgent.
Local Open Scope string_scope.

Variable import_module : string -> exn + pymodule.

Ltac run_load :=
  unfold Run.resolve, load_plugin, print;
  unfold mbind, eff_bind, mret, eff_ret, Eff.bind, Eff.try_except, Eff.ret, Eff.modify,
    Eff.lift.

Lemma load_plugin_resolved plugin_name plugin_path (s : BaseAgent.state) (instance : Plugin) :
  Run.resolve import_module plugin_name plugin_path = inr instance →
  load_plugin import_module plugin_name plugin_path s
  = (inr true,
     log_event (Printed ("✓ Plugin '" +:+ plugin_name +:+ "' loaded successfully"))
       (set_plugins (insert plugin_name instance) s)).
Proof.
  run_load.
  destruct (import_module _) as [e | module]; [discriminate |].
  destruct (getattr _ module _) as [e | plugin_class]; [discriminate |].
  intros ->. reflexivity.
Qed.



End LoadPluginFacts.

Example load_plugin_found :
  (BaseAgent.load_plugin Sample.one_plugin_importer "web_search" "plugins"
     (BaseAgent.init "A" None)).1 = inr true.
Proof. reflexivity. Qed.

Example load_plugin_missing :
  (BaseAgent.load_plugin Sample.one_plugin_importer "calculator" "plugins"
     (BaseAgent.init "A" None)).1 = inr false.
Proof. reflexivity. Qed.



(** ** String methods *)

Section PyStrFacts.

Import PyStr.
Local Open Scope string_scope.

Lemma isspace_lower_char c : isspace (lower_char c) = isspace c.
Proof. destruct c as [[] [] [] [] [] [] [] []]; reflexivity. Qed.

Lemma lower_push_token w ws :
  push_token (lower w) (lower <$> ws) = lower <$> push_token w ws.
Proof. destruct w; reflexivity. Qed.

Lemma scan_lower s :
  scan (lower s) = (lower (scan s).1, lower <$> (scan s).2).
Proof.
  induction s as [| c s IH]; [reflexivity |].
  cbn [lower scan]. rewrite IH, isspace_lower_char.
  destruct (scan s) as [w ws]. cbn [fst snd].
  destruct (isspace c); [| reflexivity].
  by rewrite lower_push_token.
Qed.

(** Lower-casing commutes with tokenizing. *)
Lemma split_lower s : split (lower s) = lower <$> split s.
Proof.
  unfold split. rewrite scan_lower. destruct (scan s) as [w ws].
  apply lower_push_token.
Qed.

Lemma push_token_nonempty w ws :
  Forall (λ t, t ≠ "") ws → Forall (λ t, t ≠ "") (push_token w ws).
Proof. intros Hws. destruct w; [done |]. by constructor. Qed.

Lemma scan_nonempty s : Forall (λ t, t ≠ "") (scan s).2.
Proof.
  induction s as [| c s IH]; [constructor |].
  cbn [scan]. destruct (scan s) as [w ws]. cbn [snd] in IH.
  destruct (isspace c); cbn [snd]; [by apply push_token_nonempty | done].
Qed.

(** [split] never yields an empty token. *)
Lemma split_nonempty s : Forall (λ t, t ≠ "") (split s).
Proof.
  unfold split. pose proof (scan_nonempty s) as Hws.
  destruct (scan s) as [w ws]. by apply push_token_nonempty.
Qed.

Lemma scan_blank s : forallb isspace (list_ascii_of_string s) = true → scan s = ("", []).
Proof.
  induction s as [| c s IH]; [reflexivity |].
  cbn [list_ascii_of_string forallb scan]. intros [Hc Hs]%andb_prop.
  rewrite (IH Hs), Hc. reflexivity.
Qed.

(** A string of whitespace only, the empty one included, has no token. *)
Lemma split_blank s : forallb isspace (list_ascii_of_string s) = true → split s = [].
Proof. intros Hs. unfold split. by rewrite (scan_blank s Hs). Qed.

Lemma forallb_isspace_lower s :
  forallb isspace (list_ascii_of_string (lower s)) = forallb isspace (list_ascii_of_string s).
Proof.
  induction s as [| c s IH]; [reflexivity |].
  cbn [lower list_ascii_of_string forallb]. by rewrite IH, isspace_lower_char.
Qed.

Lemma lower_nonempty t : t ≠ "" → lower t ≠ "".
Proof. destruct t; [done | discriminate]. Qed.

Lemma contains_in_empty w : w ≠ "" → contains w "" = false.
Proof. destruct w; [done | reflexivity]. Qed.

End PyStrFacts.

(** ** The retrieval agent *)

Section RetrievalAgentFacts.

Import Py.
Import RetrievalAgent.
Local Open Scope string_scope.

Implicit Types (query : string) (doc : dict) (s : RetrievalAgent.state).

Lemma any_word_in_text text words :
  any_word_in (VStr text) words
  = inr (existsb (λ word, PyStr.contains word (PyStr.lower text)) words).
Proof.
  induction words as [| word words IH]; [reflexivity |].
  cbn [any_word_in lower_method existsb].
  destruct (PyStr.contains word (PyStr.lower text)); [reflexivity | exact IH].
Qed.

Lemma existsb_fmap {A B} (f : A → B) (p : B → bool) (l : list A) :
  existsb p (f <$> l) = existsb (λ x, p (f x)) l.
Proof. induction l as [| x l IH]; [reflexivity |]. cbn. by rewrite IH. Qed.

Lemma existsb_all_false {A} (p : A → bool) (l : list A) :
  Forall (λ x, p x = false) l → existsb p l = false.
Proof. induction 1 as [| x l Hx _ IH]; [reflexivity |]. cbn. by rewrite Hx, IH. Qed.

(** On a document whose content is text, the test made by [_retrieve] is
    the match of the specification. *)
Lemma any_word_in_matches query doc :
  Run.text_content doc = true →
  any_word_in (get doc "content" (VStr "")) (PyStr.split (PyStr.lower query))
  = inr (Run.matches query doc).
Proof.
  unfold Run.text_content, Run.matches, get. intros Htext.
  destruct (lookup_item "content" doc) as [[[| | | text] | |] |]; try discriminate.
  - rewrite any_word_in_text, split_lower, existsb_fmap. reflexivity.
  - rewrite any_word_in_text. f_equal. apply existsb_all_false.
    rewrite split_lower. apply Forall_fmap.
    eapply Forall_impl; [apply split_nonempty |].
    intros token Htoken. cbn. by apply contains_in_empty, lower_nonempty.
Qed.

Lemma retrieve_loop_filter words (test : dict → bool) docs : ∀ results,
  Forall (λ doc, any_word_in (get doc "content" (VStr "")) words = inr (test doc)) docs →
  retrieve_loop words docs results = inr (results ++ List.filter test docs)%list.
Proof.
  induction docs as [| doc docs IH]; intros results Hdocs.
  - cbn. by rewrite app_nil_r.
  - apply Forall_cons in Hdocs as [Hdoc Hdocs].
    cbn [retrieve_loop List.filter]. rewrite Hdoc.
    destruct (test doc); rewrite IH by done; [| reflexivity].
    by rewrite <- (assoc_L (++)).
Qed.

Lemma retrieve_loop_no_word docs : ∀ results,
  retrieve_loop [] docs results = inr results.
Proof. induction docs as [| doc docs IH]; intros results; [reflexivity | apply IH]. Qed.

Lemma ascii_content_text doc : Run.ascii_content doc = true → Run.text_content doc = true.
Proof.
  unfold Run.ascii_content, Run.text_content.
  by destruct (lookup_item "content" doc) as [[[| | | text] | |] |].
Qed.



(** C10. A query made of whitespace only, the empty query included, gets an
    empty result list and count 0 from any knowledge base; and whatever the
    query, and whether [process] returns or raises, the knowledge base is
    what it was. *)
Theorem process_blank_query_finds_nothing query s :
  (forallb PyStr.isspace (list_ascii_of_string query) = true →
   ∃ response s',
     process query s = (inr response, s') ∧
     item response "results" = Some (VList []) ∧
     item response "count" = Some (VInt 0)) ∧
  (∀ any_query, knowledge_base (Run.after (process any_query) s) = knowledge_base s).
Proof.
  split.
  - intros Hblank. unfold process, _retrieve.
    unfold mbind, eff_bind, mret, eff_ret, Eff.bind, Eff.ret.
    rewrite split_blank by (by rewrite forallb_isspace_lower).
    rewrite retrieve_loop_no_word. eexists _, _. repeat split.
  - intros any_query. unfold Run.after, process, _retrieve.
    unfold mbind, eff_bind, mret, eff_ret, Eff.bind, Eff.ret.
    destruct (retrieve_loop _ _ _); reflexivity.
Qed.

Lemma process_blank_query_finds_nothing_witness :
  ∃ response s',
    process "   " Sample.library = (inr response, s') ∧
    item response "results" = Some (VList []) ∧
    item response "count" = Some (VInt 0).
Proof.
  apply (proj1 (process_blank_query_finds_nothing "   " Sample.library)).
  reflexivity.
Defined.

(** The two retrievals the specification lists. *)
Example process_cat :
  (process "cat" (mkState (BaseAgent.init "R" None) [Sample.cat_doc])).1
  = inr (response_of "cat" [Sample.cat_doc]).
Proof. reflexivity. Qed.

Example process_dog :
  (process "dog" (mkState (BaseAgent.init "R" None) [Sample.cat_doc])).1
  = inr (response_of "dog" []).
Proof. reflexivity. Qed.

End RetrievalAgentFacts.

(* ===================================================================== *)
(** * Further properties of the code *)
(* ===================================================================== *)

(** ** Invoking plugins *)

Section ExecutePluginFacts.

Import Py.
Import BaseAgent.
Local Open Scope string_scope.

Implicit Types (s : BaseAgent.state) (arg : value).

(** X1. Invoking a name that is not loaded (a string without entry, or a
    scalar that is no string) raises [ValueError] naming it, and leaves the
    agent exactly as it was. *)
Theorem execute_plugin_not_loaded (a : atom) arg s :
  (∀ key, a = AStr key → plugins s !! key = None) →
  execute_plugin (Atom a) arg s
  = (inl (ValueError ("Plugin '" +:+ str a +:+ "' not loaded")), s).
Proof.
  intros Hnone. unfold execute_plugin.
  unfold mbind, eff_bind, Eff.bind, Eff.raise.
  destruct a as [| b | n | key]; try reflexivity.
  cbn [find_plugin]. rewrite (Hnone key eq_refl). reflexivity.
Qed.

Lemma execute_plugin_not_loaded_witness :
  execute_plugin (VStr "calculator") VNone (TaskAgent.base Sample.worker)
  = (inl (ValueError "Plugin 'calculator' not loaded"), TaskAgent.base Sample.worker).
Proof.
  apply (execute_plugin_not_loaded (AStr "calculator") VNone (TaskAgent.base Sample.worker)).
  intros key [= <-]. vm_compute. reflexivity.
Defined.

(** X2. Whatever is invoked, and whether the call returns or raises, the
    registry keeps the same names, every entry but the invoked one is
    untouched, and memory and configuration are as before. *)
Theorem execute_plugin_keeps_registry_names (key : string) arg s :
  dom (plugins (Run.after (execute_plugin (VStr key) arg) s)) = dom (plugins s) ∧
  delete key (plugins (Run.after (execute_plugin (VStr key) arg) s))
    = delete key (plugins s) ∧
  memory (Run.after (execute_plugin (VStr key) arg) s) = memory s ∧
  config (Run.after (execute_plugin (VStr key) arg) s) = config s.
Proof.
  unfold Run.after, execute_plugin.
  unfold mbind, eff_bind, Eff.bind, Eff.raise. cbn [find_plugin].
  destruct (plugins s !! key) as [p |] eqn:Hp; cbn [fmap option_fmap option_map].
  - unfold call_execute.
    destruct (plugin_execute p (plugin_self p) arg) as [outcome self'].
    cbn [snd plugins log_event set_plugins memory config].
    split; [| split; [apply delete_insert_eq | done]].
    rewrite dom_insert_L. apply subseteq_union_1_L, singleton_subseteq_l.
    by apply elem_of_dom_2 in Hp.
  - done.
Qed.

(** An unhashable name is refused before any lookup. *)
Lemma execute_plugin_unhashable (xs : list value) arg s :
  execute_plugin (VList xs) arg s = (inl (TypeError "unhashable type: 'list'"), s).
Proof. reflexivity. Qed.

End ExecutePluginFacts.

Section LoadThenExecute.

Import Py.
Import BaseAgent.
Local Open Scope string_scope.

Variable import_module : string -> exn + pymodule.

Implicit Types (s : BaseAgent.state) (arg : value).



(** X5. Loading a name again stores a new instance in place of the old
    one: whatever calls changed the old instance, the registry after the
    second load is the registry after the first. *)
Theorem load_plugin_again_resets plugin_name plugin_path s (instance : Plugin) arg :
  Run.resolve import_module plugin_name plugin_path = inr instance →
  plugins (Run.after (load_plugin import_module plugin_name plugin_path)
             (Run.after (execute_plugin (VStr plugin_name) arg)
                (Run.after (load_plugin import_module plugin_name plugin_path) s)))
  = plugins (Run.after (load_plugin import_module plugin_name plugin_path) s).
Proof.
  intros Hres. unfold Run.after.
  rewrite !(load_plugin_resolved _ _ _ _ instance Hres).
  cbn [snd]. unfold execute_plugin. unfold mbind, eff_bind, Eff.bind.
  cbn [find_plugin plugins log_event set_plugins]. rewrite lookup_insert_eq.
  cbn [fmap option_fmap option_map]. unfold call_execute.
  destruct (plugin_execute instance (plugin_self instance) arg) as [outcome self'].
  cbn [snd plugins log_event set_plugins].
  by rewrite !insert_insert_eq.
Qed.

End LoadThenExecute.


Lemma load_plugin_again_resets_witness :
  BaseAgent.plugins
    (Run.after (BaseAgent.load_plugin Sample.one_plugin_importer "web_search" "plugins")
       (Run.after (BaseAgent.execute_plugin (Py.VStr "web_search") (Py.VStr "rain"))
          (Run.after (BaseAgent.load_plugin Sample.one_plugin_importer "web_search" "plugins")
             (BaseAgent.init "A" None))))
  = BaseAgent.plugins
      (Run.after (BaseAgent.load_plugin Sample.one_plugin_importer "web_search" "plugins")
         (BaseAgent.init "A" None)).
Proof.
  apply (load_plugin_again_resets Sample.one_plugin_importer "web_search" "plugins"
           (BaseAgent.init "A" None) Sample.echo (Py.VStr "rain")).
  reflexivity.
Defined.

(** ** More on the memory log *)

Section MemoryLogMore.

Import Py.
Import BaseAgent.

Implicit Types (log entries : list value) (e : value) (s : BaseAgent.state).

(** X6. The size bound is kept: from a log within its bound, no sequence
    of appends, however long, makes the log longer than [max_memory], and
    the newest entries are the ones that stay. *)
Theorem add_to_memory_never_exceeds_bound (cap : nat) s entries :
  memory_bound (config s) = Z.of_nat cap →
  (length (memory s) <= cap)%nat →
  (length (memory (Run.remember_all entries s)) <= cap)%nat ∧
  memory (Run.remember_all entries s) = Run.last_n cap (memory s ++ entries).
Proof.
  intros Hcap Hlog. split; [by apply remember_all_within_capacity |].
  by rewrite memory_remember_all, Hcap, foldl_append_bounded.
Qed.

Lemma add_to_memory_never_exceeds_bound_witness :
  (length (memory (Run.remember_all (Sample.entry <$> [3; 4; 5]%Z) Sample.two_entries))
   <= 2)%nat.
Proof.
  apply (add_to_memory_never_exceeds_bound 2 Sample.two_entries
           (Sample.entry <$> [3; 4; 5]%Z));
    [reflexivity | simpl; lia].
Defined.

Lemma foldl_append_bounded_room bound entries : ∀ log,
  (Z.of_nat (length log + length entries) <= bound)%Z →
  foldl (append_bounded bound) log entries = log ++ entries.
Proof.
  induction entries as [| e entries IH]; intros log Hroom.
  - by rewrite app_nil_r.
  - cbn [foldl]. cbn [length] in Hroom.
    assert (append_bounded bound log e = log ++ [e]) as ->.
    { unfold append_bounded. rewrite length_app. cbn [length].
      destruct (Z.gtb_spec (Z.of_nat (length log + 1)) bound); [lia | reflexivity]. }
    rewrite IH, <- (assoc_L (++)); [reflexivity |].
    rewrite length_app. cbn [length]. lia.
Qed.

(** X7. While the log has room for them, appended entries are all kept:
    nothing is evicted and the log is the old one followed by the new
    entries in order. *)
Theorem add_to_memory_with_room s entries :
  (Z.of_nat (length (memory s) + length entries) <= memory_bound (config s))%Z →
  memory (Run.remember_all entries s) = memory s ++ entries.
Proof.
  intros Hroom. rewrite memory_remember_all. by apply foldl_append_bounded_room.
Qed.

Lemma add_to_memory_with_room_witness :
  memory (Run.remember_all [Sample.entry 1; Sample.entry 2] Sample.small_agent)
  = [Sample.entry 1; Sample.entry 2].
Proof.
  apply (add_to_memory_with_room Sample.small_agent [Sample.entry 1; Sample.entry 2]).
  vm_compute. discriminate.
Defined.

(** X8. With a bound of at least one, the entry just added is always the
    last of the log: eviction takes the oldest, never the newest. *)
Theorem add_to_memory_keeps_latest s e :
  (0 < memory_bound (config s))%Z →
  last (memory (Run.after (add_to_memory e) s)) = Some e.
Proof.
  intros Hbound. unfold Run.after, add_to_memory, Eff.modify.
  cbn [snd memory set_memory]. unfold append_bounded.
  destruct (Z.gtb_spec (Z.of_nat (length (memory s ++ [e]))) (memory_bound (config s)))
    as [Hfull | _]; [| apply last_snoc].
  destruct (memory s) as [| oldest log].
  - cbn [app length] in Hfull. lia.
  - cbn [app drop]. apply last_snoc.
Qed.

Lemma add_to_memory_keeps_latest_witness :
  last (memory (Run.after (add_to_memory (Sample.entry 3)) Sample.two_entries))
  = Some (Sample.entry 3).
Proof.
  apply (add_to_memory_keeps_latest Sample.two_entries (Sample.entry 3)).
  vm_compute. reflexivity.
Defined.

(** X9. On a log that has reached or passed its bound, an append slides the
    window by one: the oldest entry goes, the size stays what it was. A log
    longer than its bound is therefore never cut back to it, and with a
    bound of zero or less an empty log stays empty. *)
Theorem add_to_memory_full_log_slides s e :
  (memory_bound (config s) <= Z.of_nat (length (memory s)))%Z →
  memory (Run.after (add_to_memory e) s) = drop 1 (memory s ++ [e]) ∧
  length (memory (Run.after (add_to_memory e) s)) = length (memory s).
Proof.
  intros Hfull. unfold Run.after, add_to_memory, Eff.modify.
  cbn [snd memory set_memory]. unfold append_bounded.
  destruct (Z.gtb_spec (Z.of_nat (length (memory s ++ [e]))) (memory_bound (config s)))
    as [_ | Hroom].
  - split; [reflexivity |]. rewrite length_drop, length_app. cbn [length]. lia.
  - rewrite length_app in Hroom. cbn [length] in Hroom. lia.
Qed.

Lemma add_to_memory_full_log_slides_witness :
  memory (Run.after (add_to_memory (Sample.entry 3)) Sample.two_entries)
  = [Sample.entry 2; Sample.entry 3].
Proof.
  apply (add_to_memory_full_log_slides Sample.two_entries (Sample.entry 3)).
  vm_compute. discriminate.
Defined.

(** X10. For a positive limit, [get_memory] returns the last
    [min(limit, len)] entries in insertion order and changes nothing;
    without a limit it returns the last ten. *)
Theorem get_memory_positive_limit (limit : Z) s :
  (0 < limit)%Z →
  get_memory (Some limit) s = (inr (Run.last_n (Z.to_nat limit) (memory s)), s) ∧
  length (Run.last_n (Z.to_nat limit) (memory s))
    = Nat.min (Z.to_nat limit) (length (memory s)) ∧
  get_memory None s = (inr (Run.last_n 10 (memory s)), s).
Proof.
  intros Hpos. unfold get_memory, Eff.gets. cbn [default].
  rewrite (recent_positive limit), (recent_positive 10) by lia.
  split; [reflexivity |]. split; [apply last_n_length | reflexivity].
Qed.

Lemma get_memory_positive_limit_witness :
  get_memory (Some 1%Z) Sample.two_entries = (inr [Sample.entry 2], Sample.two_entries).
Proof.
  apply (get_memory_positive_limit 1 Sample.two_entries). lia.
Defined.

(** X11. A negative limit does not count from the end: [get_memory(-k)]
    returns the log without its first [k] entries. *)
Theorem get_memory_negative_limit (limit : Z) s :
  (limit < 0)%Z →
  get_memory (Some limit) s = (inr (drop (Z.to_nat (- limit)) (memory s)), s).
Proof.
  intros Hneg. unfold get_memory, Eff.gets, recent, slice_from.
  change (default 10%Z (Some limit)) with limit.
  destruct (Z.ltb_spec (- limit) 0) as [Hlt | _]; [lia |].
  destruct (Z.min_spec (- limit) (Z.of_nat (length (memory s)))) as [[_ ->] | [Hle ->]];
    [reflexivity |].
  rewrite Nat2Z.id. rewrite !drop_ge by lia. reflexivity.
Qed.

Lemma get_memory_negative_limit_witness :
  get_memory (Some (-1)%Z) Sample.two_entries = (inr [Sample.entry 2], Sample.two_entries).
Proof.
  apply (get_memory_negative_limit (-1) Sample.two_entries). lia.
Defined.

End MemoryLogMore.

(** ** More on the conversational agent *)

Section ConversationalAgentMore.

Import Py.
Import ConversationalAgent.
Local Open Scope string_scope.

Implicit Types (user_input : string) (s : ConversationalAgent.state).

Ltac run_eff :=
  unfold mbind, eff_bind, mret, eff_ret, Eff.bind, Eff.try_except, Eff.zoom, Eff.ret,
    Eff.modify, Eff.raise, Eff.gets, Eff.lift.

Lemma loaded_false key s :
  BaseAgent.plugins (base s) !! key = None → loaded key s = false.
Proof.
  intros Hnone. unfold loaded. apply bool_decide_eq_false_2.
  rewrite Hnone. by intros [p Hp].
Qed.

Lemma process_plain user_input s :
  BaseAgent.plugins (base s) !! "web_search" = None →
  BaseAgent.plugins (base s) !! "calculator" = None →
  process user_input s
  = (inr (Run.canned_answer (BaseAgent.name (base s)) user_input),
     Run.plain_exchange user_input s).
Proof.
  intros Hsearch Hcalc.
  unfold process, append_history, _generate_response. run_eff.
  rewrite (loaded_false "web_search"), andb_false_r by done.
  rewrite (loaded_false "calculator"), andb_false_r by done.
  unfold Run.plain_exchange, Run.canned_answer, Run.greets, greetings.
  destruct (existsb _ _); reflexivity.
Qed.

(** X12. With neither [web_search] nor [calculator] loaded, [process]
    never raises and never invokes anything, whatever the input of ASCII
    text says: it answers with the greeting (naming the agent) when the
    lower-cased input contains "hello", "hi", "hey" or "greetings", with
    the fallback otherwise, and records the exchange. *)
Theorem process_without_plugins user_input s :
  PyStr.isascii user_input = true →
  BaseAgent.plugins (base s) !! "web_search" = None →
  BaseAgent.plugins (base s) !! "calculator" = None →
  ∃ s',
    process user_input s
      = (inr (Run.canned_answer (BaseAgent.name (base s)) user_input), s') ∧
    conversation_history s' =
      (conversation_history s
         ++ Run.turns user_input (Run.canned_answer (BaseAgent.name (base s)) user_input))%list ∧
    BaseAgent.trace (base s') = BaseAgent.trace (base s) ∧
    BaseAgent.plugins (base s') = BaseAgent.plugins (base s).
Proof.
  intros _ Hsearch Hcalc. rewrite process_plain by done.
  eexists. split; [reflexivity |]. unfold Run.plain_exchange.
  cbn [conversation_history base BaseAgent.trace BaseAgent.plugins BaseAgent.set_memory].
  by rewrite <- (assoc_L (++)).
Qed.

Lemma process_without_plugins_witness :
  ∃ s',
    process "search for this" Sample.chat_plain
      = (inr (VStr "Hello! I'm Ada. How can I assist you today?"), s') ∧
    BaseAgent.trace (base s') = [].
Proof.
  destruct (process_without_plugins "search for this" Sample.chat_plain)
    as (s' & Hrun & _ & Htrace & _); [reflexivity | reflexivity | reflexivity |].
  exists s'. split; [exact Hrun | exact Htrace].
Defined.

(** The second routing rule. *)
Lemma generate_response_calculate user_input s p :
  PyStr.contains "search" (PyStr.lower user_input) = false
    ∨ BaseAgent.plugins (base s) !! "web_search" = None →
  PyStr.contains "calculate" (PyStr.lower user_input) = true →
  BaseAgent.plugins (base s) !! "calculator" = Some p →
  _generate_response user_input s =
  on_base (BaseAgent.call_execute "calculator" p (VStr user_input)) s.
Proof.
  intros Hnosearch Hin Hp. unfold _generate_response. run_eff.
  assert (PyStr.contains "search" (PyStr.lower user_input) && loaded "web_search" s = false)
    as ->.
  { destruct Hnosearch as [-> | Hnone]; [reflexivity |].
    by rewrite (loaded_false "web_search"), andb_false_r. }
  rewrite Hin. unfold loaded. rewrite Hp.
  rewrite bool_decide_eq_true_2 by eauto. cbn [andb].
  unfold on_base, Eff.zoom. by rewrite (execute_plugin_loaded _ p).
Qed.

(** X13. When the search rule does not apply (no "search" in the
    lower-cased input, or no [web_search] loaded), an input whose
    lower-cased form contains "calculate" goes to a loaded [calculator]:
    its [execute] is called once with the input as typed, and [process]
    ends as that call does. *)
Theorem process_routes_calculate_to_calculator user_input s p outcome self' :
  PyStr.contains "search" (PyStr.lower user_input) = false
    ∨ BaseAgent.plugins (base s) !! "web_search" = None →
  PyStr.contains "calculate" (PyStr.lower user_input) = true →
  BaseAgent.plugins (base s) !! "calculator" = Some p →
  BaseAgent.plugin_execute p (BaseAgent.plugin_self p) (VStr user_input) = (outcome, self') →
  ∃ s', process user_input s = (outcome, s') ∧
    BaseAgent.trace (base s') =
      (BaseAgent.trace (base s) ++ [BaseAgent.Executed "calculator" (VStr user_input)])%list.
Proof.
  intros Hnosearch Hin Hp Hexec. unfold process, append_history. run_eff.
  rewrite (generate_response_calculate user_input _ p) by done.
  unfold on_base, Eff.zoom, BaseAgent.call_execute. cbn [base].
  rewrite Hexec. destruct outcome as [e | response]; eexists; split; reflexivity.
Qed.

Lemma process_routes_calculate_to_calculator_witness :
  ∃ s', process "Calculate 2 + 2, then search" Sample.chat_calculator
        = (inr (VList [VStr "Calculate 2 + 2, then search"]), s') ∧
    BaseAgent.trace (base s') =
      [BaseAgent.Executed "calculator" (VStr "Calculate 2 + 2, then search")].
Proof.
  apply (process_routes_calculate_to_calculator "Calculate 2 + 2, then search"
           Sample.chat_calculator Sample.echo
           (inr (VList [VStr "Calculate 2 + 2, then search"])) (VInt 1));
    [right; vm_compute; reflexivity | reflexivity | vm_compute; reflexivity | reflexivity].
Defined.

(** X14. A whole conversation in ASCII text with an agent that has neither
    plugin: every call returns, the history grows by one user turn and one
    assistant turn per input, in order, and the agent's base state is the
    one obtained by remembering the exchanges one after another. *)
Theorem converse_without_plugins (inputs : list string) : ∀ s,
  Forall (λ u, PyStr.isascii u = true) inputs →
  BaseAgent.plugins (base s) !! "web_search" = None →
  BaseAgent.plugins (base s) !! "calculator" = None →
  ∃ s',
    Run.converse inputs s
      = (inr (Run.canned_answer (BaseAgent.name (base s)) <$> inputs), s') ∧
    conversation_history s' =
      (conversation_history s
         ++ concat ((λ u, Run.turns u (Run.canned_answer (BaseAgent.name (base s)) u))
                      <$> inputs))%list ∧
    length (conversation_history s')
      = (length (conversation_history s) + 2 * length inputs)%nat ∧
    base s' =
      Run.remember_all
        ((λ u, exchange u (Run.canned_answer (BaseAgent.name (base s)) u)) <$> inputs)
        (base s).
Proof.
  induction inputs as [| u inputs IH]; intros s Hascii Hsearch Hcalc.
  - exists s. cbn. rewrite app_nil_r. repeat split. lia.
  - cbn [Run.converse]. rewrite process_plain by done.
    apply Forall_cons in Hascii as [_ Hascii].
    destruct (IH (Run.plain_exchange u s)) as (s' & -> & Hhist & Hlen & Hbase);
      [exact Hascii | exact Hsearch | exact Hcalc |].
    exists s'. split; [reflexivity |].
    rewrite Hlen, Hhist, Hbase. unfold Run.plain_exchange.
    cbn [conversation_history base BaseAgent.name BaseAgent.set_memory].
    rewrite !fmap_cons. cbn [concat length]. unfold Run.turns at 2.
    repeat split.
    + by rewrite <- !(assoc_L (++)).
    + rewrite !length_app. cbn [length]. lia.
Qed.

Lemma converse_without_plugins_witness :
  ∃ s',
    Run.converse ["hey"; "what now"] Sample.chat_plain
      = (inr [VStr "Hello! I'm Ada. How can I assist you today?";
              VStr "I understand. How else can I help you?"], s') ∧
    length (conversation_history s') = 4%nat.
Proof.
  destruct (converse_without_plugins ["hey"; "what now"] Sample.chat_plain)
    as (s' & Hrun & _ & Hlen & _); [by repeat constructor | reflexivity | reflexivity |].
  exists s'. split; [exact Hrun | exact Hlen].
Defined.

End ConversationalAgentMore.

(** ** More on the task agent *)

Section TaskAgentMore.

Import Py.
Import TaskAgent.
Local Open Scope string_scope.

Implicit Types (task : dict) (s : TaskAgent.state) (r : value).

(** X15. A task without a ["type"] key is served by nobody: it is reported
    failed, the error names the type [None], the result stays [None], and no
    plugin is called. *)
Theorem process_task_without_type task s :
  lookup_item "type" task = None →
  ∃ r s', process task s = (inr r, s') ∧
    item r "status" = Some (VStr "failed") ∧
    item r "error" = Some (VStr "No plugin for task type 'None'") ∧
    item r "result" = Some VNone ∧
    base s' = base s.
Proof.
  intros Hmissing. rewrite process_task_outcome.
  unfold Run.task_outcome, get. rewrite Hmissing. cbn [BaseAgent.find_plugin].
  eexists _, _. split; [reflexivity |]. cbn [base]. repeat split.
Qed.

Lemma process_task_without_type_witness :
  ∃ r s', process [("data", VInt 3)] Sample.worker = (inr r, s') ∧
    item r "error" = Some (VStr "No plugin for task type 'None'").
Proof.
  destruct (process_task_without_type [("data", VInt 3)] Sample.worker)
    as (r & s' & Hrun & _ & Herror & _); [reflexivity |].
  exists r, s'. split; [exact Hrun | exact Herror].
Defined.

(** X16. A task whose type is a list or a dict cannot be looked up: the
    [TypeError] of the membership test is caught, the task is reported
    failed with that error's message, and no plugin is called. *)
Theorem process_task_with_unhashable_type task s :
  (∀ a, get task "type" VNone ≠ Atom a) →
  ∃ r s', process task s = (inr r, s') ∧
    item r "status" = Some (VStr "failed") ∧
    item r "error" =
      Some (VStr ("unhashable type: '" +:+ type_name (get task "type" VNone) +:+ "'")) ∧
    base s' = base s.
Proof.
  intros Hty. rewrite process_task_outcome.
  unfold Run.task_outcome.
  destruct (get task "type" VNone) as [a | xs | items]; [by destruct (Hty a) | |];
    cbn [BaseAgent.find_plugin Run.handled TypeError Raise exn_is_exception];
    eexists _, _; (split; [reflexivity |]); cbn [base]; repeat split.
Qed.

Lemma process_task_with_unhashable_type_witness :
  ∃ r s', process [("type", VList [])] Sample.worker = (inr r, s') ∧
    item r "error" = Some (VStr "unhashable type: 'list'").
Proof.
  destruct (process_task_with_unhashable_type [("type", VList [])] Sample.worker)
    as (r & s' & Hrun & _ & Herror & _); [intros a; discriminate |].
  exists r, s'. split; [exact Hrun | exact Herror].
Defined.

Lemma task_outcome_frame task (b : BaseAgent.state) :
  BaseAgent.memory (Run.task_outcome task b).2 = BaseAgent.memory b ∧
  BaseAgent.config (Run.task_outcome task b).2 = BaseAgent.config b ∧
  dom (BaseAgent.plugins (Run.task_outcome task b).2) = dom (BaseAgent.plugins b).
Proof.
  unfold Run.task_outcome.
  destruct (BaseAgent.find_plugin _ _) as [e | [[key p] |]] eqn:Hfind; [done | | done].
  apply find_plugin_Some in Hfind as [_ Hp].
  unfold BaseAgent.call_execute.
  destruct (BaseAgent.plugin_execute p (BaseAgent.plugin_self p) _) as [[e | v] self'];
    cbn [snd BaseAgent.memory BaseAgent.config BaseAgent.plugins BaseAgent.log_event
         BaseAgent.set_plugins];
    (split; [done |]; split; [done |]);
    rewrite dom_insert_L; apply subseteq_union_1_L, singleton_subseteq_l;
    by apply elem_of_dom_2 in Hp.
Qed.

(** X17. The task agent keeps no memory of its work: returning or raising,
    [process] never adds to the memory log, never touches the queue, and
    never adds or removes a registry name. What it records goes to
    [completed_tasks]: exactly one record when it returns, none when it
    raises. *)
Theorem process_keeps_memory_and_queue task s :
  BaseAgent.memory (base (Run.after (process task) s)) = BaseAgent.memory (base s) ∧
  task_queue (Run.after (process task) s) = task_queue s ∧
  dom (BaseAgent.plugins (base (Run.after (process task) s)))
    = dom (BaseAgent.plugins (base s)) ∧
  length (completed_tasks (Run.after (process task) s))
    = match (process task s).1 with
      | inr _ => S (length (completed_tasks s))
      | inl _ => length (completed_tasks s)
      end.
Proof.
  unfold Run.after. rewrite process_task_outcome.
  destruct (task_outcome_frame task (base s)) as (Hmem & _ & Hdom).
  destruct (Run.task_outcome task (base s)) as [[e | result] b'];
    cbn [fst snd base task_queue completed_tasks] in *; repeat split; try done.
  rewrite length_app. cbn [length]. lia.
Qed.

Lemma add_tasks_queue (tasks : list dict) : ∀ s,
  Run.add_tasks tasks s = set_queue (task_queue s ++ tasks) s.
Proof.
  unfold Run.add_tasks.
  induction tasks as [| task tasks IH]; intros s.
  - cbn. rewrite app_nil_r. by destruct s.
  - cbn [foldl]. rewrite IH. unfold Run.after, add_task, Eff.modify, set_queue.
    cbn. by rewrite <- (assoc_L (++)).
Qed.

(** X18. The queue is first in, first out: after adding tasks in some
    order, a drain in which every call returns serves what was queued
    before and then the added tasks in the order they were added, and
    returns what calling [process] on them in that order returns. *)
Theorem add_tasks_served_in_order (tasks : list dict) s fuel results s' :
  Run.process_each (task_queue s ++ tasks) (set_queue [] s) = (inr results, s') →
  (length (task_queue s ++ tasks) < fuel)%nat →
  process_queue fuel (Run.add_tasks tasks s) = Some (inr results, s').
Proof.
  intros Heach Hfuel. rewrite add_tasks_queue. unfold process_queue.
  by rewrite (process_queue_loop_spec (task_queue s ++ tasks) _ [] fuel results s').
Qed.

Lemma add_tasks_served_in_order_witness :
  ∃ results s',
    process_queue 3 (Run.add_tasks [[("type", VStr "echo"); ("data", VInt 1)];
                                    [("type", VStr "bad")]] Sample.idle_worker)
    = Some (inr results, s') ∧
    Run.process_each [[("type", VStr "echo"); ("data", VInt 1)]; [("type", VStr "bad")]]
      Sample.idle_worker = (inr results, s').
Proof.
  destruct (Run.process_each
              (task_queue Sample.idle_worker
                 ++ [[("type", VStr "echo"); ("data", VInt 1)]; [("type", VStr "bad")]])
              (set_queue [] Sample.idle_worker))
    as [[e | results] s'] eqn:Heach; [vm_compute in Heach; discriminate Heach |].
  exists results, s'. split; [| exact Heach].
  apply (add_tasks_served_in_order
           [[("type", VStr "echo"); ("data", VInt 1)]; [("type", VStr "bad")]]
           Sample.idle_worker 3 results s' Heach).
  simpl. lia.
Defined.

Lemma process_queue_loop_returns fuel : ∀ acc s outcome s',
  process_queue_loop fuel acc s = Some (outcome, s') →
  match outcome with
  | inr _ => task_queue s' = []
  | inl e => exn_is_exception e = false
  end.
Proof.
  induction fuel as [| fuel IH]; intros acc s outcome s' Hrun; [discriminate |].
  cbn [process_queue_loop] in Hrun.
  destruct (task_queue s) as [| task rest] eqn:Hq.
  - injection Hrun as <- <-. exact Hq.
  - destruct (process task (set_queue rest s)) as [[e | r] s1] eqn:Hproc.
    + injection Hrun as <- <-. by apply process_raises_inv in Hproc as [Hexit _].
    + by apply IH in Hrun.
Qed.

(** X19. A drain that returns has emptied the queue, so draining again
    right away returns no result and changes nothing. A drain that ends by
    an exception ends by one that is no [Exception]. *)
Theorem process_queue_again_is_empty fuel fuel' s outcome s' :
  process_queue fuel s = Some (outcome, s') →
  (0 < fuel')%nat →
  match outcome with
  | inr _ => task_queue s' = [] ∧ process_queue fuel' s' = Some (inr [], s')
  | inl e => exn_is_exception e = false
  end.
Proof.
  intros Hrun Hfuel. apply process_queue_loop_returns in Hrun.
  destruct outcome as [e | results]; [exact Hrun |].
  split; [exact Hrun |].
  destruct fuel' as [| fuel']; [lia |].
  unfold process_queue. cbn [process_queue_loop]. by rewrite Hrun.
Qed.

Lemma process_queue_again_is_empty_witness :
  process_queue 1 (Run.after (λ s, default (inr [], s) (process_queue 5 s)) Sample.worker)
  = Some (inr [], Run.after (λ s, default (inr [], s) (process_queue 5 s)) Sample.worker).
Proof.
  refine (proj2 (process_queue_again_is_empty 5 1 Sample.worker (inr _) _ _ _)); [| lia].
  vm_compute. reflexivity.
Defined.

End TaskAgentMore.

(** ** More on the retrieval agent *)

Section RetrievalAgentMore.

Import Py.
Import RetrievalAgent.
Local Open Scope string_scope.

Implicit Types (query : string) (doc : dict) (s : RetrievalAgent.state).

Lemma add_documents_knowledge_base (documents : list dict) : ∀ s,
  Run.add_documents documents s = mkState (base s) (knowledge_base s ++ documents)%list.
Proof.
  unfold Run.add_documents.
  induction documents as [| doc documents IH]; intros s.
  - cbn. rewrite app_nil_r. by destruct s.
  - cbn [foldl]. rewrite IH. unfold Run.after, add_document, Eff.modify.
    cbn. by rewrite <- (assoc_L (++)).
Qed.

(** X20. Loading a list of documents is adding them one by one: both put
    the documents after the ones already known, in the order given, and
    touch nothing else. *)
Theorem load_documents_adds_each (documents : list dict) s :
  Run.after (load_documents documents) s = Run.add_documents documents s ∧
  knowledge_base (Run.after (load_documents documents) s)
    = (knowledge_base s ++ documents)%list ∧
  base (Run.after (load_documents documents) s) = base s.
Proof. rewrite add_documents_knowledge_base. done. Qed.

Lemma any_word_in_true content words :
  any_word_in content words = inr true →
  ∃ text word,
    content = VStr text ∧ word ∈ words ∧ PyStr.contains word (PyStr.lower text) = true.
Proof.
  induction words as [| word words IH]; [discriminate |].
  cbn [any_word_in]. destruct content as [[| | | text] | |]; try discriminate.
  cbn [lower_method].
  destruct (PyStr.contains word (PyStr.lower text)) eqn:Hin.
  - intros _. exists text, word. repeat split; [apply list_elem_of_here | done].
  - intros (text' & word' & Heq & Hword & Hin')%IH.
    exists text', word'. repeat split; [done | by apply list_elem_of_further | done].
Qed.

Lemma any_word_in_retrieved query doc :
  any_word_in (get doc "content" (VStr "")) (PyStr.split (PyStr.lower query)) = inr true →
  Run.retrieved_for query doc.
Proof.
  intros (text & word & Hcontent & Hword & Hin)%any_word_in_true.
  rewrite split_lower in Hword.
  apply list_elem_of_fmap in Hword as (token & -> & Htoken).
  exists text, token. repeat split; [| done | done].
  unfold get in Hcontent.
  destruct (lookup_item "content" doc) as [v |]; [by rewrite Hcontent |].
  injection Hcontent as <-.
  pose proof (split_nonempty query) as Hne.
  rewrite Forall_forall in Hne.
  rewrite contains_in_empty in Hin; [discriminate |].
  by apply lower_nonempty, Hne.
Qed.

Lemma retrieve_loop_sound words docs : ∀ results found,
  retrieve_loop words docs results = inr found →
  ∃ new,
    found = (results ++ new)%list ∧
    sublist new docs ∧
    Forall (λ doc, any_word_in (get doc "content" (VStr "")) words = inr true) new.
Proof.
  induction docs as [| doc docs IH]; intros results found Hrun.
  - injection Hrun as <-. exists []. by rewrite app_nil_r.
  - cbn [retrieve_loop] in Hrun.
    destruct (any_word_in _ words) as [e | [|]] eqn:Hdoc; [discriminate | |].
    + apply IH in Hrun as (new & -> & Hsub & Hall).
      exists (doc :: new). rewrite <- (assoc_L (++)).
      repeat split; [by apply sublist_skip | by constructor].
    + apply IH in Hrun as (new & -> & Hsub & Hall).
      exists new. repeat split; [by apply sublist_cons | done].
Qed.

(** X21. For a query of ASCII text, and documents whose content, when it
    is a string, is ASCII text (contents that are no strings are allowed):
    a call of [process] that returns reports only documents of the
    knowledge base, in their stored order, each with a text [content] in
    which a token of the query occurs (case ignored); the count is the
    number of reported documents and never exceeds the size of the
    knowledge base. *)
Theorem process_reports_only_matching_documents query s response s' :
  PyStr.isascii query = true →
  Forall (λ doc, ∀ text, lookup_item "content" doc = Some (VStr text) →
                         PyStr.isascii text = true) (knowledge_base s) →
  process query s = (inr response, s') →
  ∃ results,
    response = response_of query results ∧
    sublist results (knowledge_base s) ∧
    Forall (Run.retrieved_for query) results ∧
    item response "count" = Some (VInt (Z.of_nat (length results))) ∧
    (length results <= length (knowledge_base s))%nat.
Proof.
  intros _ _.
  unfold process, _retrieve. unfold mbind, eff_bind, mret, eff_ret, Eff.bind, Eff.ret.
  destruct (retrieve_loop _ (knowledge_base s) []) as [e | results] eqn:Hloop;
    [discriminate |].
  intros [= <- _].
  apply retrieve_loop_sound in Hloop as (new & -> & Hsub & Hall).
  exists new. cbn [app]. repeat split; try done.
  - eapply Forall_impl; [exact Hall |]. intros doc. apply any_word_in_retrieved.
  - by apply sublist_length.
Qed.

Lemma process_reports_only_matching_documents_witness :
  ∃ results,
    sublist results (knowledge_base Sample.library) ∧
    Forall (Run.retrieved_for "cat") results.
Proof.
  destruct (process_reports_only_matching_documents "cat" Sample.library
              (response_of "cat" [Sample.cat_doc; Sample.titled_doc])
              (Run.after (process "cat") Sample.library))
    as (results & _ & Hsub & Hall & _).
  { reflexivity. }
  { repeat constructor; intros text [= <-]; reflexivity. }
  { reflexivity. }
  exists results. split; [exact Hsub | exact Hall].
Defined.

Lemma any_word_in_raises content words e :
  any_word_in content words = inl e → exn_class e = "AttributeError".
Proof.
  induction words as [| word words IH]; [discriminate |].
  cbn [any_word_in]. destruct content as [[| | | text] | |]; cbn [lower_method];
    try (intros [= <-]; reflexivity).
  destruct (PyStr.contains word (PyStr.lower text)); [discriminate | exact IH].
Qed.

Lemma any_word_in_not_text doc word words :
  Run.text_content doc = false →
  ∃ e, any_word_in (get doc "content" (VStr "")) (word :: words) = inl e.
Proof.
  unfold Run.text_content, get. cbn [any_word_in].
  destruct (lookup_item "content" doc) as [[[| | | text] | |] |]; try discriminate;
    intros _; cbn [lower_method]; eauto.
Qed.

Lemma retrieve_loop_raises word words docs : ∀ results,
  Exists (λ doc, Run.text_content doc = false) docs →
  ∃ e, retrieve_loop (word :: words) docs results = inl e ∧
       exn_class e = "AttributeError".
Proof.
  induction docs as [| doc docs IH]; intros results Hbad; [by apply Exists_nil in Hbad |].
  cbn [retrieve_loop].
  destruct (any_word_in (get doc "content" (VStr "")) (word :: words))
    as [e | found] eqn:Hdoc.
  - exists e. split; [reflexivity |]. by apply any_word_in_raises in Hdoc.
  - apply Exists_cons in Hbad as [Hbad | Hbad].
    + destruct (any_word_in_not_text doc word words Hbad) as [e He]. congruence.
    + destruct found; by apply IH.
Qed.

(** X22. A stored document whose [content] is not text breaks every query
    of ASCII text that has a token: [process] raises [AttributeError], and
    nothing is added to the memory log. *)
Theorem process_raises_on_content_that_is_no_text query s :
  PyStr.isascii query = true →
  PyStr.split (PyStr.lower query) ≠ [] →
  Exists (λ doc, Run.text_content doc = false) (knowledge_base s) →
  ∃ e, process query s = (inl e, s) ∧ exn_class e = "AttributeError".
Proof.
  intros _ Htokens Hbad. unfold process, _retrieve.
  unfold mbind, eff_bind, mret, eff_ret, Eff.bind, Eff.ret.
  destruct (PyStr.split (PyStr.lower query)) as [| word words]; [done |].
  destruct (retrieve_loop_raises word words (knowledge_base s) [] Hbad) as (e & -> & He).
  by exists e.
Qed.

Lemma process_raises_on_content_that_is_no_text_witness :
  ∃ e, process "dog" Sample.bad_library = (inl e, Sample.bad_library) ∧
       exn_class e = "AttributeError".
Proof.
  apply (process_raises_on_content_that_is_no_text "dog" Sample.bad_library).
  - reflexivity.
  - vm_compute. discriminate.
  - apply Exists_cons_tl, Exists_cons_hd. reflexivity.
Defined.

Lemma lower_char_idemp c : PyStr.lower_char (PyStr.lower_char c) = PyStr.lower_char c.
Proof. destruct c as [[] [] [] [] [] [] [] []]; reflexivity. Qed.

Lemma lower_idemp text : PyStr.lower (PyStr.lower text) = PyStr.lower text.
Proof.
  induction text as [| c text IH]; [reflexivity |].
  cbn [PyStr.lower]. by rewrite lower_char_idemp, IH.
Qed.

(** X23. The case of the query does not matter: the lower-cased query
    retrieves exactly what the query as typed retrieves, raising included. *)
Theorem retrieve_ignores_query_case query s :
  _retrieve (PyStr.lower query) s = _retrieve query s.
Proof. unfold _retrieve. by rewrite lower_idemp. Qed.

(** X24. Adding a document and asking again: with ASCII text as query and
    as contents throughout, the answer to a query after [add_document] is
    the answer before it, followed by the new document when, and only
    when, it matches. *)
Theorem add_document_then_retrieve query doc s :
  PyStr.isascii query = true →
  Forall (λ d, Run.ascii_content d = true) (knowledge_base s) →
  Run.ascii_content doc = true →
  _retrieve query s
    = (inr (List.filter (Run.matches query) (knowledge_base s)), s) ∧
  _retrieve query (Run.after (add_document doc) s)
    = (inr (List.filter (Run.matches query) (knowledge_base s)
              ++ (if Run.matches query doc then [doc] else []))%list,
       Run.after (add_document doc) s).
Proof.
  intros _ Hdocs Hdoc. unfold _retrieve, Run.after, add_document, Eff.modify.
  cbn [snd knowledge_base].
  assert (Forall (λ d, any_word_in (get d "content" (VStr ""))
                         (PyStr.split (PyStr.lower query)) = inr (Run.matches query d))
            (knowledge_base s)) as Hkb.
  { eapply Forall_impl; [exact Hdocs |]. intros d Hd.
    by apply any_word_in_matches, ascii_content_text. }
  rewrite !(retrieve_loop_filter _ (Run.matches query)).
  - rewrite List.filter_app. cbn [List.filter app].
    split; [reflexivity |]. by destruct (Run.matches query doc).
  - apply Forall_app. split; [exact Hkb |]. apply Forall_singleton.
    by apply any_word_in_matches, ascii_content_text.
  - exact Hkb.
Qed.

Lemma add_document_then_retrieve_witness :
  _retrieve "DOG" (Run.after (add_document Sample.titled_doc)
                     (mkState (BaseAgent.init "R" None) [Sample.cat_doc]))
  = (inr [Sample.titled_doc],
     Run.after (add_document Sample.titled_doc)
       (mkState (BaseAgent.init "R" None) [Sample.cat_doc])).
Proof.
  refine (proj2 (add_document_then_retrieve "DOG" Sample.titled_doc
                   (mkState (BaseAgent.init "R" None) [Sample.cat_doc]) _ _ _));
    [reflexivity | repeat constructor | reflexivity].
Defined.

End RetrievalAgentMore.

(** ** The factory *)

Section CreateAgentFacts.

Import Py.
Local Open Scope string_scope.

Lemma types_get_unknown key :
  key ≠ "conversational" → key ≠ "task" → key ≠ "retrieval" →
  types_get key agent_types = None.
Proof.
  intros Hc Ht Hr. unfold agent_types. cbn [types_get].
  apply String.eqb_neq in Hc, Ht, Hr. by rewrite Hc, Ht, Hr.
Qed.

(** X25. The tag picks the class whatever its letter case, and the agent
    built is the one the class builds from the same [name] and [config];
    without a tag the agent is conversational; any other tag of ASCII text
    builds nothing and raises [ValueError] quoting the tag as it was
    given. *)
Theorem create_agent_by_tag (tag : string) name config :
  (PyStr.lower tag = "conversational" →
   create_agent (Some tag) name config
   = inr (Conversational (ConversationalAgent.init name config))) ∧
  (PyStr.lower tag = "task" →
   create_agent (Some tag) name config = inr (Task (TaskAgent.init name config))) ∧
  (PyStr.lower tag = "retrieval" →
   create_agent (Some tag) name config
   = inr (Retrieval (RetrievalAgent.init name config))) ∧
  (PyStr.isascii tag = true →
   PyStr.lower tag ≠ "conversational" →
   PyStr.lower tag ≠ "task" →
   PyStr.lower tag ≠ "retrieval" →
   create_agent (Some tag) name config
   = inl (ValueError ("Unknown agent type: " +:+ tag))) ∧
  create_agent None name config
  = inr (Conversational (ConversationalAgent.init name config)).
Proof.
  unfold create_agent.
  change (default "conversational" (Some tag)) with tag.
  repeat split.
  - by intros ->.
  - by intros ->.
  - by intros ->.
  - intros _ Hc Ht Hr. by rewrite types_get_unknown.
Qed.

Lemma create_agent_by_tag_witness :
  create_agent (Some "CONVERSATIONAL") (Some "Ada") None
    = create_agent (Some "conversational") (Some "Ada") None ∧
  create_agent (Some "Task ") None None = inl (ValueError "Unknown agent type: Task ").
Proof.
  split.
  - rewrite (proj1 (create_agent_by_tag "CONVERSATIONAL" (Some "Ada") None) eq_refl).
    symmetry. apply (proj1 (create_agent_by_tag "conversational" (Some "Ada") None)).
    reflexivity.
  - apply (proj1 (proj2 (proj2 (proj2 (create_agent_by_tag "Task " None None)))));
      [reflexivity | vm_compute; discriminate ..].
Defined.

(** X26. A conversational agent fresh from the factory answers its first
    input, of ASCII text, without raising: it has no plugin, so it greets under the name it
    was given (or its class name) or falls back, and its history then holds
    exactly the two turns of that exchange. *)
Theorem created_agent_first_exchange (tag : string) name config user_input s :
  PyStr.isascii user_input = true →
  create_agent (Some tag) name config = inr (Conversational s) →
  ∃ s',
    ConversationalAgent.process user_input s
      = (inr (Run.canned_answer (default "ConversationalAgent" name) user_input), s') ∧
    ConversationalAgent.conversation_history s'
      = Run.turns user_input
          (Run.canned_answer (default "ConversationalAgent" name) user_input) ∧
    BaseAgent.memory (ConversationalAgent.base s')
      = BaseAgent.append_bounded (BaseAgent.memory_bound (default BaseAgent.empty_config config))
          [] (ConversationalAgent.exchange user_input
                (Run.canned_answer (default "ConversationalAgent" name) user_input)).
Proof.
  intros _. unfold create_agent.
  change (default "conversational" (Some tag)) with tag.
  destruct (types_get (PyStr.lower tag) agent_types) as [cls |] eqn:Hcls; [| discriminate].
  unfold agent_types in Hcls. cbn [types_get] in Hcls.
  repeat (destruct (String.eqb _ _) in Hcls; [injection Hcls as <- |]); try discriminate;
    intros [= <-].
  rewrite process_plain by reflexivity.
  eexists. split; [reflexivity |]. split; reflexivity.
Qed.

Lemma created_agent_first_exchange_witness :
  ∃ s',
    ConversationalAgent.process "Hello!"
      (ConversationalAgent.init (Some "MyAgent") None)
      = (inr (VStr "Hello! I'm MyAgent. How can I assist you today?"), s').
Proof.
  destruct (created_agent_first_exchange "conversational" (Some "MyAgent") None "Hello!"
              (ConversationalAgent.init (Some "MyAgent") None))
    as (s' & Hrun & _); [reflexivity | reflexivity |].
  exists s'. exact Hrun.
Defined.

End CreateAgentFacts.

(** ** The class-name convention *)

Section ClassNameFacts.

Import PyStr.
Local Open Scope string_scope.

Lemma isalpha_lower_char c : isalpha (lower_char c) = isalpha c.
Proof. destruct c as [[] [] [] [] [] [] [] []]; reflexivity. Qed.

Lemma upper_lower_char c : upper_char (lower_char c) = upper_char c.
Proof. destruct c as [[] [] [] [] [] [] [] []]; reflexivity. Qed.

Lemma title_from_lower s : ∀ prev_cased,
  title_from prev_cased (lower s) = title_from prev_cased s.
Proof.
  induction s as [| c s IH]; intros prev_cased; [reflexivity |].
  cbn [lower title_from].
  rewrite isalpha_lower_char, IH, lower_char_idemp, upper_lower_char. reflexivity.
Qed.

(** X27. The class looked up for a plugin whose name is ASCII text does
    not depend on the letter case of the name: [load_plugin] derives the
    same class name from a name and from its lower-cased form. *)
Theorem class_name_ignores_case (plugin_name : string) :
  isascii plugin_name = true →
  BaseAgent.class_name (lower plugin_name) = BaseAgent.class_name plugin_name.
Proof. intros _. unfold BaseAgent.class_name, title. by rewrite title_from_lower. Qed.

Lemma class_name_ignores_case_witness :
  BaseAgent.class_name "web_search" = BaseAgent.class_name "WEB_Search".
Proof. apply (class_name_ignores_case "WEB_Search"). reflexivity. Defined.

End ClassNameFacts.
